(** * Module catalog builder and maintenance workflow

    A shallow embedding of [scripts/build.py] and [scripts/git-commit.py]:
    the descriptor parser, the GraphQL client, the module resolver, the
    catalog builder, and the prune/commit workflow, with the properties the
    specification states about them.

    Python values are modelled as they are at run time: a [str] is its
    sequence of code points, the result of [json.load] / [response.json()]
    is a [pyval], a [dict] with string keys is a finite map, and a raised
    exception is the [Raise] case of [result]. *)

From Stdlib Require Import ZArith NArith String Ascii List Permutation Sorted.
From stdpp Require Import base option list gmap pretty.
Import ListNotations.

Local Open Scope Z_scope.
Local Open Scope list_scope.

(** ** Strings *)

(** A Python [str]: the list of its code points. *)
Abbreviation str := (list N).

(** The code points of an ASCII literal. *)
Definition py (s : string) : str := map N_of_ascii (list_ascii_of_string s).
Arguments py : simpl never.

(** The double quote, which the query text embeds. *)
Definition dquote : str := [34%N].

Definition str_eqb (a b : str) : bool := bool_decide (a = b).

(** ** Exceptions and results *)

Inductive exn :=
| AttributeError | KeyError | TypeError | ValueError | OverflowError
| UnicodeDecodeError | JSONDecodeError | RequestException
| UnknownObjectException | GithubException
| CalledProcessError | FileNotFoundError.

Definition exn_eqb (a b : exn) : bool :=
  match a, b with
  | AttributeError, AttributeError | KeyError, KeyError
  | TypeError, TypeError | ValueError, ValueError
  | OverflowError, OverflowError
  | UnicodeDecodeError, UnicodeDecodeError
  | JSONDecodeError, JSONDecodeError
  | RequestException, RequestException
  | UnknownObjectException, UnknownObjectException
  | GithubException, GithubException
  | CalledProcessError, CalledProcessError
  | FileNotFoundError, FileNotFoundError => true
  | _, _ => false
  end.

Inductive result (A : Type) :=
| Ok (a : A)
| Raise (e : exn).
Arguments Ok {A} a.
Arguments Raise {A} e.

Definition bind {A B} (m : result A) (k : A -> result B) : result B :=
  match m with
  | Ok a => k a
  | Raise e => Raise e
  end.

(** [try: m except e: h]. *)
Definition try_except {A} (m : result A) (e : exn) (h : result A) : result A :=
  match m with
  | Ok a => Ok a
  | Raise e' => if exn_eqb e' e then h else Raise e'
  end.

Declare Scope py_scope.
Delimit Scope py_scope with py.
Notation "'let*' x ':=' m 'in' k" := (bind m (fun x => k))
  (at level 10, x name, m at level 100, k at level 200,
   format "'[v' 'let*'  x  ':='  m  'in' '/' k ']'") : py_scope.
Local Open Scope py_scope.

(** ** Python values, as [json] decoding produces them *)

#[warnings="-register-all"]
Inductive pyval :=
| PNone
| PBool (b : bool)
| PInt (z : Z)
| PFloat (literal : str)
| PStr (s : str)
| PList (l : list pyval)
| PDict (d : gmap str pyval).

(** [v.get(k)]: only a dict has the method. *)
Definition py_get (v : pyval) (k : str) : result pyval :=
  match v with
  | PDict d => Ok (default PNone (d !! k))
  | _ => Raise AttributeError
  end.

(** [v[k]] with a string key. *)
Definition py_getitem (v : pyval) (k : str) : result pyval :=
  match v with
  | PDict d => match d !! k with
               | Some x => Ok x
               | None => Raise KeyError
               end
  | _ => Raise TypeError
  end.

(** [for item in v]: the items the loop sees. A dict yields its keys and a
    string its characters, each of them a [str]; the keys come in the order
    of the map, on which no caller depends. *)
Definition py_iter (v : pyval) : result (list pyval) :=
  match v with
  | PList l => Ok l
  | PDict d => Ok (map (fun kv => PStr (fst kv)) (map_to_list d))
  | PStr s => Ok (map (fun c => PStr [c]) s)
  | _ => Raise TypeError
  end.

(** [v == s] for a string literal [s]. *)
Definition py_eq_str (v : pyval) (s : str) : bool :=
  match v with
  | PStr s' => str_eqb s' s
  | _ => false
  end.

Definition is_none (v : pyval) : bool :=
  match v with PNone => true | _ => false end.

(** ** String methods *)

(** The code points [str.splitlines] breaks a line at. *)
Definition is_linebreak (c : N) : bool :=
  (N.eqb c 10 || N.eqb c 11 || N.eqb c 12 || N.eqb c 13 ||
   N.eqb c 28 || N.eqb c 29 || N.eqb c 30 || N.eqb c 133 ||
   N.eqb c 8232 || N.eqb c 8233)%bool.

(** [s.splitlines()]: the lines without their terminators; a carriage
    return followed by a line feed is one terminator, and a terminator at
    the very end opens no further line. *)
Fixpoint splitlines (s : str) : list str :=
  match s with
  | [] => []
  | c :: rest =>
      if is_linebreak c then
        [] :: (if N.eqb c 13 then
                 match rest with
                 | c' :: rest' =>
                     if N.eqb c' 10 then splitlines rest' else splitlines rest
                 | [] => splitlines rest
                 end
               else splitlines rest)
      else
        match splitlines rest with
        | [] => [[c]]
        | l :: ls => (c :: l) :: ls
        end
  end.

(** [sep in s] for a one-character [sep]. *)
Definition contains (sep : N) (s : str) : bool := existsb (N.eqb sep) s.

(** The text before the first [sep] and, when there is one, the text
    after it. *)
Fixpoint break_at (sep : N) (s : str) : str * option str :=
  match s with
  | [] => ([], None)
  | c :: rest =>
      if N.eqb c sep then ([], Some rest)
      else let '(k, v) := break_at sep rest in (c :: k, v)
  end.

(** [s.split(sep, 1)]. *)
Definition split_max1 (sep : N) (s : str) : list str :=
  match break_at sep s with
  | (k, Some v) => [k; v]
  | (k, None) => [k]
  end.

(** [s.split(sep)]. *)
Fixpoint split_on (sep : N) (s : str) : list str :=
  match s with
  | [] => [[]]
  | c :: rest =>
      if N.eqb c sep then [] :: split_on sep rest
      else match split_on sep rest with
           | l :: ls => (c :: l) :: ls
           | [] => [[c]]
           end
  end.

(** [a, b = l]. *)
Definition unpack2 {A} (l : list A) : result (A * A) :=
  match l with
  | [a; b] => Ok (a, b)
  | _ => Raise ValueError
  end.

(** [l[-1]] of a list that [split] returned, which is never empty. *)
Definition last_item (l : list str) : str := default [] (last l).

(** [v.split(sep)[-1]]: only a string has [split]. *)
Definition py_last_segment (v : pyval) (sep : N) : result str :=
  match v with
  | PStr s => Ok (last_item (split_on sep s))
  | _ => Raise AttributeError
  end.

Definition eq_sign : N := 61.
Definition slash : N := 47.

(** ** The forge, as [build.py] sees it *)

(** A file returned by [repo.get_contents(path)]. [decoded_text] is
    [decoded_content.decode("utf-8")], absent when the bytes are not
    UTF-8. *)
Record ContentFile := {
  decoded_text : option str;
  download_url : str
}.

(** [get_contents] returns one file, or a list when the path is a
    directory. *)
Inductive contents :=
| AFile (f : ContentFile)
| AListing (l : list ContentFile).

(** A [github.Repository]: its attributes, and its two lookups with the
    exception each may raise ([UnknownObjectException] for a 404). *)
Record Repository := {
  owner_login : str;
  name : str;
  ssh_url : str;
  clone_url : str;
  html_url : str;
  has_issues : bool;
  repo_get_contents : str -> result contents;
  repo_get_license : result str
}.

(** What [requests.post] returns: [ok] and the outcome of [.json()]. *)
Record Response := {
  ok : bool;
  json : result pyval
}.

(** A module record and its metadata. *)
Record Metadata := {
  meta_license : str;
  meta_homepage : pyval;
  meta_source : str;
  meta_donate : pyval;
  meta_support : str
}.

Record Module := {
  mod_id : str;
  mod_kind : str;
  mod_provider : str;
  mod_changelog : str;
  mod_metadata : Metadata
}.

(** The [modules] slot of [_config]: the empty dict it starts as, or the
    list [generate_modules] stores. *)
Inductive modules_slot :=
| EmptyDict
| ModuleList (l : list Module).

(** [GithubApi]: the token its clients hold and [_config], whose [log]
    and [repository] entries stay empty dicts. *)
Record GithubApi := {
  api_token : str;
  config_modules : modules_slot
}.

Definition GithubApi_init (token : str) : GithubApi :=
  {| api_token := token; config_modules := EmptyDict |}.

(** Attribute access on what [get_contents] returned: a list has neither
    [decoded_content] nor [download_url]. *)
Definition as_file (c : contents) : result ContentFile :=
  match c with
  | AFile f => Ok f
  | AListing _ => Raise AttributeError
  end.

Definition decode_utf8 (f : ContentFile) : result str :=
  match decoded_text f with
  | Some s => Ok s
  | None => Raise UnicodeDecodeError
  end.

Section Build.

(** The network and the libraries [build.py] calls.
    [requests_post auth query] is [requests.post] to the GraphQL
    endpoint with that [Authorization] header and that query text;
    [get_user_repos] is [get_user(user_name).get_repos()];
    [dateutil_parse] is [dateutil.parser.parse] on a string. *)
Variable requests_post : str -> str -> result Response.
Variable get_user_repos : str -> result (list Repository).
Variable datetime : Type.
Variable dateutil_parse : str -> result datetime.

(** *** class GitHubGraphQL *)

Definition graphql_query (token query : str) : result pyval :=
  let* response := requests_post (py "bearer " ++ token) query in
  if ok response then json response else Ok PNone.

Definition repository_query (owner name query : str) : str :=
  let params :=
    py "owner: " ++ dquote ++ owner ++ dquote ++
    py ", name: " ++ dquote ++ name ++ dquote in
  py "query { repository(" ++ params ++ py ") { " ++ query ++ py " } }".

Definition query_repository (token owner name query : str) : result pyval :=
  let _query := repository_query owner name query in
  let* result := graphql_query token _query in
  try_except
    (let* data := py_get result (py "data") in
     let* repository := py_get data (py "repository") in
     Ok repository)
    AttributeError
    (Ok PNone).

(** The loop of [get_sponsor_url] over the funding entries. *)
Fixpoint sponsor_links (items links : list pyval) : result (list pyval) :=
  match items with
  | [] => Ok links
  | item :: rest =>
      let* platform := py_getitem item (py "platform") in
      if py_eq_str platform (py "GITHUB") then
        let* url := py_getitem item (py "url") in
        let* name := py_last_segment url slash in
        sponsor_links rest
          (links ++ [PStr (py "https://github.com/sponsors/" ++ name)])
      else
        let* url := py_getitem item (py "url") in
        sponsor_links rest (links ++ [url])
  end.

Definition get_sponsor_url (token owner name : str) : result (list pyval) :=
  let* repository :=
    query_repository token owner name (py "fundingLinks { platform url }") in
  if is_none repository then Ok []
  else
    let* funding_links := py_getitem repository (py "fundingLinks") in
    let* items := py_iter funding_links in
    sponsor_links items [].

Definition get_homepage_url (token owner name : str) : result pyval :=
  let* repository := query_repository token owner name (py "homepageUrl") in
  if is_none repository then Ok PNone
  else
    let* homepage_url := py_getitem repository (py "homepageUrl") in
    if negb (py_eq_str homepage_url []) then Ok homepage_url
    else Ok PNone.

(** [dateutil.parser.parse(v)]: anything but a string is a
    [TypeError]. *)
Definition parse (v : pyval) : result datetime :=
  match v with
  | PStr s => dateutil_parse s
  | _ => Raise TypeError
  end.

Definition get_pushed_at (token owner name : str)
  : result (option datetime) :=
  let* repository := query_repository token owner name (py "pushedAt") in
  if is_none repository then Ok None
  else
    try_except
      (let* pushed_at := py_getitem repository (py "pushedAt") in
       let* t := parse pushed_at in
       Ok (Some t))
      TypeError
      (Ok None).

(** *** class GithubApi *)

Definition get_license (repo : Repository) : result str :=
  try_except
    (let* spdx_id := repo_get_license repo in
     if str_eqb spdx_id (py "NOASSERTION") then Ok [] else Ok spdx_id)
    UnknownObjectException
    (Ok []).

Definition get_changelog (repo : Repository) : result str :=
  try_except
    (let* c := repo_get_contents repo (py "changelog.md") in
     let* f := as_file c in
     Ok (download_url f))
    UnknownObjectException
    (Ok []).

(** The loop of [get_module_prop] over the lines of the descriptor. *)
Fixpoint prop_lines (lines : list str) (module_prop : gmap str str)
  : result (gmap str str) :=
  match lines with
  | [] => Ok module_prop
  | line :: rest =>
      if negb (contains eq_sign line) then prop_lines rest module_prop
      else
        let* kv := unpack2 (split_max1 eq_sign line) in
        prop_lines rest (<[fst kv := snd kv]> module_prop)
  end.

(** The parsing part of [get_module_prop], on the decoded text. *)
Definition parse_module_prop (prop : str) : result (gmap str str) :=
  prop_lines (splitlines prop) ∅.

Definition get_module_prop (repo : Repository)
  : result (option (gmap str str)) :=
  try_except
    (let* c := repo_get_contents repo (py "module.prop") in
     let* f := as_file c in
     let* prop := decode_utf8 f in
     let* module_prop := parse_module_prop prop in
     Ok (Some module_prop))
    UnknownObjectException
    (Ok None).

(** [module_prop.get("updateJson")] taken as a condition: the key is
    there and its value is not the empty string. *)
Definition truthy (v : option str) : bool :=
  match v with
  | Some (_ :: _) => true
  | _ => false
  end.

(** [module_prop[k]]. *)
Definition prop_getitem (module_prop : gmap str str) (k : str) : result str :=
  match module_prop !! k with
  | Some v => Ok v
  | None => Raise KeyError
  end.

(** What the function prints is left out; the lookup of [id] that the
    [print] makes stays, as the first place where a missing key raises. *)
Definition generate_module (token : str) (repo : Repository)
  : result (option Module) :=
  let* module_prop := get_module_prop repo in
  match module_prop with
  | None => Ok None
  | Some module_prop =>
      let* pck :=
        if truthy (module_prop !! py "updateJson") then
          let* provider := prop_getitem module_prop (py "updateJson") in
          Ok (provider, [], py "update-json")
        else
          let* changelog := get_changelog repo in
          Ok (ssh_url repo, changelog, py "git") in
      let '(provider, changelog, kind) := pck in
      let issues :=
        if has_issues repo then html_url repo ++ py "/issues" else [] in
      let* donate_urls :=
        get_sponsor_url token (owner_login repo) (name repo) in
      let donate :=
        match donate_urls with
        | [] => PStr []
        | first :: _ => first
        end in
      let* homepage :=
        get_homepage_url token (owner_login repo) (name repo) in
      let homepage := if is_none homepage then PStr [] else homepage in
      let* id := prop_getitem module_prop (py "id") in
      let* license := get_license repo in
      Ok (Some {|
        mod_id := id;
        mod_kind := kind;
        mod_provider := provider;
        mod_changelog := changelog;
        mod_metadata := {|
          meta_license := license;
          meta_homepage := homepage;
          meta_source := clone_url repo;
          meta_donate := donate;
          meta_support := issues
        |}
      |})
  end.

(** The loop of [generate_modules] over the repositories. *)
Fixpoint collect_modules (token : str) (repos : list Repository)
    (modules : list Module) : result (list Module) :=
  match repos with
  | [] => Ok modules
  | repo :: rest =>
      let* module := generate_module token repo in
      match module with
      | Some m => collect_modules token rest (modules ++ [m])
      | None => collect_modules token rest modules
      end
  end.

Definition generate_modules (api : GithubApi) (user_name : str)
  : result GithubApi :=
  let* repos := get_user_repos user_name in
  let* modules := collect_modules (api_token api) repos [] in
  Ok {| api_token := api_token api; config_modules := ModuleList modules |}.

End Build.

(** ** The working tree, as [git-commit.py] sees it *)

Definition GITHUB_MAX_SIZE : Z := 50 * 1024 * 1024.

(** A directory entry: what [stat] reports as its size and, for a
    directory, its own entries in the order the system lists them. The tree
    holds regular files and directories only. *)
#[warnings="-register-all"]
Inductive node :=
| File (size : Z)
| Dir (size : Z) (entries : list (str * node)).

Definition st_size (n : node) : Z :=
  match n with
  | File size => size
  | Dir size _ => size
  end.

Definition is_dir (n : node) : bool :=
  match n with Dir _ _ => true | File _ => false end.

(** One segment of a [glob] pattern, as [fnmatch] reads it. *)
Inductive glob_tok :=
| GChar (c : N)          (* the character itself *)
| GStar                  (* [*]: any run of characters *)
| GNot (cs : list N).    (* [[!cs]]: one character not among [cs] *)

Fixpoint glob_match (p : list glob_tok) (s : str) : bool :=
  match p with
  | [] => match s with [] => true | _ => false end
  | GChar c :: p' =>
      match s with
      | c' :: s' => N.eqb c c' && glob_match p' s'
      | [] => false
      end
  | GNot cs :: p' =>
      match s with
      | c' :: s' => negb (existsb (N.eqb c') cs) && glob_match p' s'
      | [] => false
      end
  | GStar :: p' =>
      (fix star (s : str) : bool :=
         glob_match p' s ||
         match s with
         | [] => false
         | _ :: s' => star s'
         end) s
  end.

(** The segment [[!.]*] of the pattern [[!.]*/]. *)
Definition not_hidden : list glob_tok := [GNot (py "."); GStar].

(** The pattern [*.zip]. *)
Definition zip_pattern : list glob_tok := GStar :: map GChar (py ".zip").

(** [dir.glob(p)]: the entries whose name matches, in listing order. *)
Definition glob (p : list glob_tok) (entries : list (str * node))
  : list (str * node) :=
  List.filter (fun e => glob_match p (fst e)) entries.

(** [dir.glob(p + "/")]: the trailing separator keeps directories only. *)
Definition glob_dirs (p : list glob_tok) (entries : list (str * node))
  : list (str * node) :=
  List.filter (fun e => is_dir (snd e)) (glob p entries).

(** Python's order on strings: by code point, a prefix first. *)
Fixpoint str_leb (a b : str) : bool :=
  match a, b with
  | [], _ => true
  | _ :: _, [] => false
  | x :: a', y :: b' =>
      if N.ltb x y then true
      else if N.eqb x y then str_leb a' b'
      else false
  end.

Fixpoint insert_sorted (x : str) (l : list str) : list str :=
  match l with
  | [] => [x]
  | y :: l' => if str_leb x y then x :: l else y :: insert_sorted x l'
  end.

(** [sorted(paths)] for paths of one directory, given by their names. *)
Fixpoint sorted (l : list str) : list str :=
  match l with
  | [] => []
  | x :: l' => insert_sorted x (sorted l')
  end.

(** The entries of the directory called [name], none if there is no such
    directory. *)
Fixpoint children (name : str) (entries : list (str * node))
  : list (str * node) :=
  match entries with
  | [] => []
  | (n, nd) :: rest =>
      if str_eqb n name then
        match nd with
        | Dir _ es => es
        | File _ => []
        end
      else children name rest
  end.

(** [shutil.rmtree(dir / name, ignore_errors=True)], taken to delete the
    whole directory. *)
Definition rmtree (name : str) (entries : list (str * node))
  : list (str * node) :=
  List.filter (fun e => negb (str_eqb (fst e) name)) entries.

(** The loop of [skip_it] over the files that [glob] yields. *)
Fixpoint skip_it_loop (files : list (str * node)) : bool :=
  match files with
  | [] => false
  | file :: rest =>
      if Z.geb (st_size (snd file)) GITHUB_MAX_SIZE then true
      else skip_it_loop rest
  end.

(** [Git.skip_it], on the entries of [module_dir]. *)
Definition skip_it (module_dir : list (str * node)) : bool :=
  skip_it_loop (glob zip_pattern module_dir).

(** What [open] and [json.load] make of [json/modules.json]: no such
    file, bytes that do not decode as text, text that is no JSON, or the
    decoded value. *)
Inductive manifest :=
| NoManifest
| NotText
| Unparseable
| Parsed (modules : pyval).

(** The working directory: the listing of [modules/] and the manifest. *)
Record World := {
  modules_dir : list (str * node);
  modules_json : manifest
}.

(** The process: the working directory, the subprocesses started so far
    and the lines printed so far. *)
Record State := {
  world : World;
  calls : list (list str);
  stdout : list str
}.

Definition load_manifest (m : manifest) : result pyval :=
  match m with
  | NoManifest => Raise FileNotFoundError
  | NotText => Raise UnicodeDecodeError
  | Unparseable => Raise JSONDecodeError
  | Parsed modules => Ok modules
  end.

(** The loop of [Git.remove] over the sorted module directories. *)
Fixpoint remove_loop (dirs : list str) (s : State) : State :=
  match dirs with
  | [] => s
  | module_dir :: rest =>
      let w := world s in
      if skip_it (children module_dir (modules_dir w)) then
        remove_loop rest
          {| world := {| modules_dir := rmtree module_dir (modules_dir w);
                         modules_json := modules_json w |};
             calls := calls s;
             stdout := stdout s ++ [py "remove: " ++ module_dir] |}
      else remove_loop rest s
  end.

Definition remove (s : State) : State * result unit :=
  let dirs := sorted (map fst (glob_dirs not_hidden (modules_dir (world s)))) in
  (remove_loop dirs s, Ok tt).

Section Commit.

(** The programs and the library [git-commit.py] calls.
    [subprocess args w] is what the program started with [args] in the
    working directory makes of it, and its return code. Python's floats,
    true division, [datetime.fromtimestamp(t, UTC)] and [str(time)] are
    taken as they are. *)
Variable subprocess : list str -> World -> World * Z.
Variable float : Type.
Variable float_of_literal : str -> float.
Variable int_truediv : Z -> Z -> result float.
Variable float_truediv : float -> Z -> float.
Variable time : Type.
Variable fromtimestamp_utc : float -> result time.
Variable time_str : time -> str.

(** [subprocess.run(args, check=True, cwd=...)]. *)
Definition run_checked (args : list str) (s : State) : State * result unit :=
  let '(w, returncode) := subprocess args (world s) in
  let s' := {| world := w; calls := calls s ++ [args]; stdout := stdout s |} in
  if Z.eqb returncode 0 then (s', Ok tt) else (s', Raise CalledProcessError).

Definition upgrade (s : State) : State * result unit :=
  run_checked [py "mrepo"; py "upgrade"; py "--pretty"] s.

Definition add (s : State) : State * result unit :=
  run_checked [py "git"; py "add"; py "--all"] s.

(** [v / d] for an integer [d]: a [bool] counts as an [int]. *)
Definition py_truediv (v : pyval) (d : Z) : result float :=
  match v with
  | PInt z => int_truediv z d
  | PBool b => int_truediv (Z.b2z b) d
  | PFloat literal => Ok (float_truediv (float_of_literal literal) d)
  | _ => Raise TypeError
  end.

(** The message [Git.commit] builds from the manifest. *)
Definition commit_message (modules : pyval) : result str :=
  let* ts := py_getitem modules (py "timestamp") in
  let* timestamp := py_truediv ts 1000 in
  let* time := fromtimestamp_utc timestamp in
  Ok (py "Update by CLI (" ++ time_str time ++ py ")").

Definition commit (s : State) : State * result unit :=
  match
    (let* modules := load_manifest (modules_json (world s)) in
     commit_message modules)
  with
  | Ok msg => run_checked [py "git"; py "commit"; py "-m"; msg] s
  | Raise e => (s, Raise e)
  end.

(** One step after another, stopping at the first exception. *)
Definition and_then (a b : State -> State * result unit)
  : State -> State * result unit :=
  fun s =>
    match a s with
    | (s', Ok _) => b s'
    | (s', Raise e) => (s', Raise e)
    end.

(** [Main.exec], from the parsed working directory on. *)
Definition exec : State -> State * result unit :=
  and_then remove (and_then upgrade (and_then add commit)).

End Commit.

(** ** Notions the statements use *)

(** What the loop does with one line. *)
Definition line_step (module_prop : gmap str str) (line : str)
  : gmap str str :=
  match break_at eq_sign line with
  | (k, Some v) => <[k := v]> module_prop
  | (_, None) => module_prop
  end.

(** A line yields the key [k] when it is [k], the separator and a value. *)
Definition yields_key (k line : str) : Prop :=
  exists v, line = k ++ eq_sign :: v.

(** The repository object inside a decoded response body: the value at
    [data.repository], [None] when either level is missing or is not a
    dict. *)
Definition repository_of (body : pyval) : pyval :=
  match body with
  | PDict d =>
      match d !! py "data" with
      | Some (PDict d') => default PNone (d' !! py "repository")
      | _ => PNone
      end
  | _ => PNone
  end.

Definition funding_query : str := py "fundingLinks { platform url }".

(** The decoded body has no repository: it is no object, or its [data]
    is missing, null or no object, or the [repository] inside is missing
    or null. *)
Definition lacks_repository (body : pyval) : Prop :=
  (forall d, body <> PDict d) \/
  exists d, body = PDict d /\
    (d !! py "data" = None \/
     (exists v, d !! py "data" = Some v /\ forall d', v <> PDict d') \/
     exists d', d !! py "data" = Some (PDict d') /\
       (d' !! py "repository" = None \/
        d' !! py "repository" = Some PNone)).

(** A well-formed funding entry: a dict with a [platform] and a string
    [url]. *)
Definition funding_entry (item : pyval) (e : pyval * str) : Prop :=
  exists d, item = PDict d /\
            d !! py "platform" = Some (fst e) /\
            d !! py "url" = Some (PStr (snd e)).

(** [seg] is the last [sep]-separated segment of [s]. *)
Definition last_segment (sep : N) (s seg : str) : Prop :=
  (sep ∉ seg) /\ (s = seg \/ exists before, s = before ++ sep :: seg).

(** The URL the client returns for one funding entry. *)
Definition sponsor_url (e : pyval * str) : pyval :=
  if py_eq_str (fst e) (py "GITHUB") then
    PStr (py "https://github.com/sponsors/" ++ last_item (split_on slash (snd e)))
  else PStr (snd e).

(** ** Sample forge states *)

(** A dict literal. *)
Definition dict (l : list (str * pyval)) : pyval := PDict (list_to_map l).

(** A response body whose [data.repository] is [r]. *)
Definition body_with_repository (r : pyval) : pyval :=
  dict [(py "data", dict [(py "repository", r)])].

(** A network on which every request raises. *)
Definition post_raising (e : exn) : str -> str -> result Response :=
  fun _ _ => Raise e.

(** A network on which every request gets the same response. *)
Definition post_answering (is_ok : bool) (body : result pyval)
  : str -> str -> result Response :=
  fun _ _ => Ok {| ok := is_ok; json := body |}.

Definition text_file (text url : str) : contents :=
  AFile {| decoded_text := Some text; download_url := url |}.

(** The files of a repository; any other path is a 404. *)
Definition files_of (l : list (str * contents)) : str -> result contents :=
  fun path =>
    match List.find (fun e => str_eqb (fst e) path) l with
    | Some e => Ok (snd e)
    | None => Raise UnknownObjectException
    end.

(** A repository of the account [octo]. *)
Definition sample_repo (nm : str) (files : list (str * contents))
  : Repository :=
  {| owner_login := py "octo";
     name := nm;
     ssh_url := py "git@github.com:octo/" ++ nm ++ py ".git";
     clone_url := py "https://github.com/octo/" ++ nm ++ py ".git";
     html_url := py "https://github.com/octo/" ++ nm;
     has_issues := true;
     repo_get_contents := files_of files;
     repo_get_license := Ok (py "MIT") |}.

Definition changelog_file : str * contents :=
  (py "changelog.md", text_file (py "# 1.0") (py "https://raw.example/changelog.md")).

(** [id=foo], no [updateJson], and a changelog. *)
Definition repo_git : Repository :=
  sample_repo (py "foo")
    [(py "module.prop", text_file (py "id=foo" ++ [10%N] ++ py "name=Foo" ++ [10%N]) []);
     changelog_file].

(** An [updateJson] entry, and a changelog all the same. *)
Definition repo_update_json : Repository :=
  sample_repo (py "bar")
    [(py "module.prop",
      text_file (py "id=bar" ++ [10%N] ++
                 py "updateJson=https://x.example/update.json" ++ [10%N]) []);
     changelog_file].

(** No descriptor. *)
Definition repo_plain : Repository := sample_repo (py "notes") [changelog_file].

(** A descriptor without an [id]. *)
Definition repo_without_id : Repository :=
  sample_repo (py "anon")
    [(py "module.prop", text_file (py "name=Anonymous" ++ [10%N]) [])].

Definition sample_token : str := py "token".

(** The funding entries of the specification's example. *)
Definition sample_funding : list (pyval * str) :=
  [(PStr (py "GITHUB"), py "https://github.com/sponsors-org");
   (PStr (py "OTHER"), py "https://x.example")].

Definition funding_item (e : pyval * str) : pyval :=
  dict [(py "platform", fst e); (py "url", PStr (snd e))].

Definition sample_funding_body : pyval :=
  body_with_repository
    (dict [(py "fundingLinks", PList (map funding_item sample_funding));
           (py "homepageUrl", PNone)]).

(** The repository has a descriptor: looking [module.prop] up is not a
    404. *)
Definition has_descriptor (repo : Repository) : bool :=
  match repo_get_contents repo (py "module.prop") with
  | Raise UnknownObjectException => false
  | _ => true
  end.

(** An account with three repositories, the second without descriptor. *)
Definition sample_account : str -> result (list Repository) :=
  fun _ => Ok [repo_git; repo_plain; repo_update_json].

(** The account of the specification's end-to-end example. *)
Definition two_repositories : str -> result (list Repository) :=
  fun _ => Ok [repo_git; repo_plain].

(** A network that answers every query with a 401. *)
Definition unauthorized : str -> str -> result Response :=
  post_answering false (Raise JSONDecodeError).

(** A date parser that rejects [bad], as [dateutil] rejects a string that
    holds no date, and returns any other string as it is. *)
Definition parse_rejecting (bad : str) : str -> result str :=
  fun s => if str_eqb s bad then Raise ValueError else Ok s.

Definition pushed_at_body (v : pyval) : pyval :=
  body_with_repository (dict [(py "pushedAt", v)]).

(** ** Notions about the working tree *)

(** The entries directly inside a node: none for a file. *)
Definition own_entries (nd : node) : list (str * node) :=
  match nd with
  | Dir _ es => es
  | File _ => []
  end.

(** A name that [*.zip] matches. *)
Definition zip_name (n : str) : Prop := exists stem, n = stem ++ py ".zip".

(** A name that [[!.]*] matches: it has a first character, which is not a
    dot. *)
Definition not_hidden_name (n : str) : Prop :=
  exists c rest, n = c :: rest /\ c <> 46%N.

(** The directory holds, directly inside it, an archive at or above the
    limit. *)
Definition oversized (es : list (str * node)) : Prop :=
  exists n nd, (n, nd) ∈ es /\ zip_name n /\ GITHUB_MAX_SIZE <= st_size nd.

(** The entries of [modules/] that [Git.remove] deletes. *)
Definition doomed (e : str * node) : bool :=
  glob_match not_hidden (fst e) && is_dir (snd e) && skip_it (own_entries (snd e)).

(** [v] is an [int], a [bool] or a [float]. *)
Definition is_number (v : pyval) : bool :=
  match v with
  | PInt _ | PBool _ | PFloat _ => true
  | _ => false
  end.

Definition commit_args (msg : str) : list str :=
  [py "git"; py "commit"; py "-m"; msg].

(** ** Sample working trees *)

Definition MiB : Z := 1024 * 1024.

(** [modules/] with an oversized module, a small one, a hidden directory
    with an oversized archive, a module whose large files are no direct
    archives, and a stray file. *)
Definition sample_modules : list (str * node) :=
  [(py "zygisk", Dir 4096 [(py "v1.zip", File (3 * MiB));
                            (py "v2.zip", File (50 * MiB))]);
   (py "busybox", Dir 4096 [(py "v1.zip", File (50 * MiB - 1));
                             (py "track.json", File 512)]);
   (py ".git", Dir 4096 [(py "pack.zip", File (80 * MiB))]);
   (py "fonts", Dir 4096 [(py "fonts.tar", File (90 * MiB));
                           (py "old", Dir 4096 [(py "v0.zip", File (70 * MiB))])]);
   (py "README.zip", File (60 * MiB))].

Definition sample_state (m : manifest) : State :=
  {| world := {| modules_dir := sample_modules; modules_json := m |};
     calls := [];
     stdout := [] |}.

(** Programs that change nothing and succeed. *)
Definition quiet_subprocess : list str -> World -> World * Z :=
  fun _ w => (w, 0).

(** A stand-in for the floats and the clock: a quotient is kept as the
    pair of its operands, and a time prints as that quotient. *)
Definition show_number (v : pyval) : str :=
  match v with
  | PInt z => py (pretty z)
  | PBool b => if b then py "True" else py "False"
  | PFloat literal => literal
  | _ => []
  end.

Definition quotient_str (q : pyval * Z) : str :=
  py "utc(" ++ show_number (fst q) ++ py "/" ++ py (pretty (snd q)) ++ py ")".

(** The commit step and the whole workflow on the stand-ins. *)
Definition sample_commit : State -> State * result unit :=
  commit quiet_subprocess (pyval * Z)%type
    (fun literal => (PFloat literal, 1))
    (fun z d => Ok (PInt z, d))
    (fun f d => (fst f, snd f * d))
    (pyval * Z)%type Ok quotient_str.

Definition sample_exec : State -> State * result unit :=
  exec quiet_subprocess (pyval * Z)%type
    (fun literal => (PFloat literal, 1))
    (fun z d => Ok (PInt z, d))
    (fun f d => (fst f, snd f * d))
    (pyval * Z)%type Ok quotient_str.

Definition manifest_with (timestamp : pyval) : manifest :=
  Parsed (dict [(py "name", PStr (py "repo")); (py "timestamp", timestamp)]).

(** ** Notions for further properties *)

(** The line that a key and a value are written as. *)
Definition prop_line (kv : str * str) : str := fst kv ++ eq_sign :: snd kv.

(** Lines joined into a text, each ended by a line feed. *)
Definition unlines (lines : list str) : str :=
  concat (map (fun line => line ++ [10%N]) lines).

Definition no_linebreak (s : str) : Prop :=
  Forall (fun c => is_linebreak c = false) s.

(** A key that can be written on a line: no [=] and no line terminator. *)
Definition plain_key (k : str) : Prop := (eq_sign ∉ k) /\ no_linebreak k.

(** [repo] with another outcome for the lookup of [changelog.md]. *)
Definition with_changelog (repo : Repository) (c : result contents)
  : Repository :=
  {| owner_login := owner_login repo;
     name := name repo;
     ssh_url := ssh_url repo;
     clone_url := clone_url repo;
     html_url := html_url repo;
     has_issues := has_issues repo;
     repo_get_contents := fun path =>
       if str_eqb path (py "changelog.md") then c
       else repo_get_contents repo path;
     repo_get_license := repo_get_license repo |}.

Definition upgrade_args : list str := [py "mrepo"; py "upgrade"; py "--pretty"].
Definition add_args : list str := [py "git"; py "add"; py "--all"].

(** Ascending in Python's order on strings. *)
Definition ascending (l : list str) : Prop :=
  StronglySorted (fun a b => str_leb a b = true) l.

(** A program that fails at [git add] and succeeds otherwise. *)
Definition failing_add : list str -> World -> World * Z :=
  fun args w => if bool_decide (args = add_args) then (w, 1) else (w, 0).

(** A program that fails at [mrepo upgrade] and succeeds otherwise. *)
Definition failing_upgrade : list str -> World -> World * Z :=
  fun args w => if bool_decide (args = upgrade_args) then (w, 2) else (w, 0).

(** [exec] on the stand-in clock, with the given programs. *)
Definition exec_with (subprocess : list str -> World -> World * Z)
  : State -> State * result unit :=
  exec subprocess (pyval * Z)%type
    (fun literal => (PFloat literal, 1))
    (fun z d => Ok (PInt z, d))
    (fun f d => (fst f, snd f * d))
    (pyval * Z)%type Ok quotient_str.

(** A repository whose descriptor lookup fails with a server error. *)
Definition repo_broken : Repository :=
  {| owner_login := py "octo";
     name := py "broken";
     ssh_url := [];
     clone_url := [];
     html_url := [];
     has_issues := false;
     repo_get_contents := fun _ => Raise GithubException;
     repo_get_license := Raise GithubException |}.

Definition sponsors_prefix : str := py "https://github.com/sponsors/".

(** The URL that the funding loop appends for [item]: for the platform
    [GITHUB] the item needs a string [url], whose last segment is used;
    for any other platform the value at [url] is passed on as it is. *)
Definition link_of (item url : pyval) : Prop :=
  exists d platform,
    item = PDict d /\
    d !! py "platform" = Some platform /\
    ((platform = PStr (py "GITHUB") /\
      exists u, d !! py "url" = Some (PStr u) /\
                url = PStr (sponsors_prefix ++ last_item (split_on slash u))) \/
     (platform <> PStr (py "GITHUB") /\ d !! py "url" = Some url)).

(** A value that a [for] loop cannot iterate. *)
Definition not_iterable (v : pyval) : Prop :=
  match v with
  | PNone | PBool _ | PInt _ | PFloat _ => True
  | _ => False
  end.

(** * Properties *)

(** ** Results *)

Lemma bind_ok {A B} (m : result A) (k : A -> result B) (b : B) :
  bind m k = Ok b -> exists a, m = Ok a /\ k a = Ok b.
Proof. destruct m as [a|e]; simpl; [eauto | discriminate]. Qed.

(** ** The descriptor parser *)

Lemma contains_elem_of (sep : N) (s : str) :
  contains sep s = true <-> sep ∈ s.
Proof.
  unfold contains. rewrite existsb_exists. split.
  - intros (x & Hin & Heq). apply N.eqb_eq in Heq. subst x.
    by apply list_elem_of_In.
  - intros Hin. exists sep. split; [by apply list_elem_of_In | apply N.eqb_refl].
Qed.

Lemma contains_false (sep : N) (s : str) :
  contains sep s = false <-> sep ∉ s.
Proof.
  rewrite <- contains_elem_of. destruct (contains sep s); split; done.
Qed.

(** A line without the separator has no second part. *)
Lemma break_at_absent (sep : N) (s : str) :
  sep ∉ s -> break_at sep s = (s, None).
Proof.
  induction s as [|c s IH]; simpl; [done|].
  intros Hnot. apply not_elem_of_cons in Hnot as [Hne Hnot].
  destruct (N.eqb_spec c sep) as [->|_]; [done|].
  by rewrite IH.
Qed.

(** A line is cut at its first separator, and nothing is trimmed. *)
Lemma break_at_first (sep : N) (k v : str) :
  sep ∉ k -> break_at sep (k ++ sep :: v) = (k, Some v).
Proof.
  induction k as [|c k IH]; simpl; intros Hnot.
  - by rewrite N.eqb_refl.
  - apply not_elem_of_cons in Hnot as [Hne Hnot].
    destruct (N.eqb_spec c sep) as [->|_]; [done|].
    by rewrite IH.
Qed.

Lemma break_at_present (sep : N) (s : str) :
  sep ∈ s -> exists k v, s = k ++ sep :: v /\ sep ∉ k.
Proof.
  induction s as [|c s IH]; intros Hin; [by apply elem_of_nil in Hin|].
  destruct (decide (c = sep)) as [->|Hne].
  - exists [], s. split; [done | apply not_elem_of_nil].
  - apply elem_of_cons in Hin as [->|Hin]; [done|].
    destruct (IH Hin) as (k & v & -> & Hk).
    exists (c :: k), v. split; [done|].
    apply not_elem_of_cons. split; [congruence | done].
Qed.

(** The two parts of a line are determined by the line. *)
Lemma key_value_unique (sep : N) (k k' v v' : str) :
  sep ∉ k -> sep ∉ k' -> k ++ sep :: v = k' ++ sep :: v' -> k = k' /\ v = v'.
Proof.
  intros Hk Hk' Heq.
  pose proof (break_at_first sep k v Hk) as H1.
  pose proof (break_at_first sep k' v' Hk') as H2.
  rewrite Heq in H1. rewrite H1 in H2. by inversion H2.
Qed.

Lemma prop_lines_fold (lines : list str) (m : gmap str str) :
  prop_lines lines m = Ok (foldl line_step m lines).
Proof.
  revert m. induction lines as [|line rest IH]; intros m; simpl; [done|].
  unfold line_step at 2.
  destruct (contains eq_sign line) eqn:Hc; simpl.
  - apply contains_elem_of, break_at_present in Hc as (k & v & -> & Hk).
    unfold split_max1. rewrite (break_at_first _ _ _ Hk). simpl. apply IH.
  - apply contains_false in Hc. rewrite (break_at_absent _ _ Hc). apply IH.
Qed.

Lemma line_step_absent (m : gmap str str) (line : str) :
  eq_sign ∉ line -> line_step m line = m.
Proof. intros H. unfold line_step. by rewrite break_at_absent. Qed.

Lemma line_step_pair (m : gmap str str) (k v : str) :
  eq_sign ∉ k -> line_step m (k ++ eq_sign :: v) = <[k := v]> m.
Proof. intros H. unfold line_step. by rewrite break_at_first. Qed.

Lemma line_step_other (m : gmap str str) (k line : str) :
  eq_sign ∉ k -> ~ yields_key k line -> line_step m line !! k = m !! k.
Proof.
  intros Hk Hno. unfold line_step.
  destruct (decide (eq_sign ∈ line)) as [Hin|Hout].
  - destruct (break_at_present _ _ Hin) as (k' & v' & -> & Hk').
    rewrite (break_at_first _ _ _ Hk').
    apply lookup_insert_ne. intros ->. apply Hno. by exists v'.
  - by rewrite (break_at_absent _ _ Hout).
Qed.

Lemma yields_key_dec (k line : str) :
  eq_sign ∉ k -> yields_key k line \/ ~ yields_key k line.
Proof.
  intros Hk. destruct (decide (eq_sign ∈ line)) as [Hin|Hout].
  - destruct (break_at_present _ _ Hin) as (k' & v' & -> & Hk').
    destruct (decide (k = k')) as [->|Hne].
    + left. by exists v'.
    + right. intros [v Heq]. symmetry in Heq.
      by apply (key_value_unique eq_sign) in Heq as [-> _].
  - right. intros [v ->]. apply Hout.
    apply elem_of_app. right. apply elem_of_cons. by left.
Qed.

(** Every key of the mapping is free of the separator, as long as the
    mapping it started from is. *)
Lemma foldl_line_step_keys (lines : list str) (m : gmap str str) (k : str) :
  (forall k', is_Some (m !! k') -> eq_sign ∉ k') ->
  is_Some (foldl line_step m lines !! k) -> eq_sign ∉ k.
Proof.
  revert m. induction lines as [|line rest IH]; intros m Hm; simpl; [apply Hm|].
  apply IH. intros k' Hk'. unfold line_step in Hk'.
  destruct (decide (eq_sign ∈ line)) as [Hin|Hout].
  - destruct (break_at_present _ _ Hin) as (k0 & v0 & -> & Hk0).
    rewrite (break_at_first _ _ _ Hk0) in Hk'.
    destruct (decide (k0 = k')) as [<-|Hne]; [done|].
    rewrite lookup_insert_ne in Hk' by done. by apply Hm.
  - rewrite (break_at_absent _ _ Hout) in Hk'. by apply Hm.
Qed.

(** The last line that yields [k] decides its value; a key that no line
    yields keeps what the mapping had. *)
Lemma foldl_line_step_lookup (lines : list str) (m : gmap str str) (k v : str) :
  eq_sign ∉ k ->
  foldl line_step m lines !! k = Some v <->
    (exists before after,
        lines = before ++ (k ++ eq_sign :: v) :: after /\
        Forall (fun line => ~ yields_key k line) after) \/
    (Forall (fun line => ~ yields_key k line) lines /\ m !! k = Some v).
Proof.
  intros Hk. revert m.
  induction lines as [|line rest IH] using rev_ind; intros m.
  - simpl. split.
    + intros H. right. by split.
    + intros [(before & after & Heq & _)|[_ H]]; [|done].
      by destruct before.
  - rewrite foldl_app. simpl.
    destruct (yields_key_dec k line Hk) as [[v' ->]|Hno].
    + rewrite line_step_pair by done. rewrite lookup_insert_eq. split.
      * intros [= ->]. left. exists rest, []. split; [done | constructor].
      * intros [(before & after & Heq & Hafter)|[Hall _]].
        -- destruct after as [|a after _] using rev_ind.
           ++ apply app_inj_tail in Heq as [_ Heq].
              apply (key_value_unique eq_sign) in Heq as [_ ->]; done.
           ++ rewrite app_comm_cons, app_assoc in Heq.
              apply app_inj_tail in Heq as [_ <-].
              apply Forall_app in Hafter as [_ Ha].
              apply Forall_inv in Ha. simpl in Ha. destruct Ha. by exists v'.
        -- apply Forall_app in Hall as [_ Ha].
           apply Forall_inv in Ha. simpl in Ha. destruct Ha. by exists v'.
    + rewrite line_step_other by done. rewrite IH. split.
      * intros [(before & after & -> & Hafter)|[Hall Hm]].
        -- left. exists before, (after ++ [line]). split.
           ++ by rewrite <- app_assoc.
           ++ apply Forall_app. split; [done | by apply Forall_singleton].
        -- right. split; [|done].
           apply Forall_app. split; [done | by apply Forall_singleton].
      * intros [(before & after & Heq & Hafter)|[Hall Hm]].
        -- destruct after as [|a after _] using rev_ind.
           ++ apply app_inj_tail in Heq as [_ ->]. destruct Hno. by exists v.
           ++ rewrite app_comm_cons, app_assoc in Heq.
              apply app_inj_tail in Heq as [-> <-].
              apply Forall_app in Hafter as [Hafter _].
              left. by exists before, after.
        -- right. apply Forall_app in Hall as [Hall _]. by split.
Qed.

(** Removing a line without the separator changes nothing. *)
Lemma prop_lines_ignores (before after : list str) (line : str)
    (m : gmap str str) :
  eq_sign ∉ line ->
  prop_lines (before ++ line :: after) m = prop_lines (before ++ after) m.
Proof.
  intros Hout. rewrite !prop_lines_fold, !foldl_app. simpl.
  by rewrite line_step_absent.
Qed.

(** No line that [splitlines] returns holds a line terminator. *)
Lemma splitlines_no_linebreak (s : str) :
  Forall (Forall (fun c => is_linebreak c = false)) (splitlines s).
Proof.
  assert (forall n (s : str), (length s <= n)%nat ->
            Forall (Forall (fun c => is_linebreak c = false)) (splitlines s))
    as Hn; [|by apply (Hn (length s))].
  intros n. induction n as [|n IH]; intros [|c rest] Hlen; simpl in *;
    try constructor; try lia.
  destruct (is_linebreak c) eqn:Hc.
  - constructor; [constructor|].
    destruct (N.eqb c 13); [|apply IH; lia].
    destruct rest as [|c' rest']; [constructor|].
    destruct (N.eqb c' 10); apply IH; simpl in *; lia.
  - assert (Forall (Forall (fun c => is_linebreak c = false)) (splitlines rest))
      as Hrest by (apply IH; lia).
    destruct (splitlines rest) as [|l ls].
    + constructor; [|constructor]. by constructor.
    + apply Forall_cons in Hrest as [Hl Hls].
      constructor; [by constructor | done].
Qed.

(** C2. For every descriptor text the parser returns a mapping, and never
    raises. A line without [=] is ignored. A key maps to a value exactly
    when some line is that key, an [=] and that value, the key holding no
    [=] (the line is cut at its first [=], values may hold more of them,
    nothing is trimmed), and no later line yields the same key: the last
    occurrence wins. *)
Theorem descriptor_last_write_wins (prop : str) :
  exists module_prop : gmap str str,
    parse_module_prop prop = Ok module_prop /\
    (forall (before after : list str) (line : str) (m : gmap str str),
        eq_sign ∉ line ->
        prop_lines (before ++ line :: after) m =
        prop_lines (before ++ after) m) /\
    (forall k v : str,
        module_prop !! k = Some v <->
        exists before after : list str,
          splitlines prop = before ++ (k ++ eq_sign :: v) :: after /\
          (eq_sign ∉ k) /\
          Forall (fun line => ~ yields_key k line) after).
Proof.
  exists (foldl line_step ∅ (splitlines prop)).
  split; [apply prop_lines_fold|].
  split; [intros; by apply prop_lines_ignores|].
  intros k v. split.
  - intros Hlook.
    assert (eq_sign ∉ k) as Hk.
    { apply (foldl_line_step_keys (splitlines prop) ∅ k).
      - intros k' [x Hx]. by rewrite lookup_empty in Hx.
      - by exists v. }
    apply (foldl_line_step_lookup _ _ _ _ Hk) in Hlook
      as [(before & after & Heq & Hafter)|[_ Hempty]].
    + by exists before, after.
    + by rewrite lookup_empty in Hempty.
  - intros (before & after & Heq & Hk & Hafter).
    apply (foldl_line_step_lookup _ _ _ _ Hk). left. by exists before, after.
Qed.

(** A descriptor with a repeated key, a value holding [=], spaces around
    the separator and a line without one. *)
Example descriptor_sample :
  let text := py "id=foo" ++ [10%N] ++ py "name = a=b" ++ [13%N; 10%N] ++
              py "junk" ++ [10%N] ++ py "id=bar" ++ [10%N] in
  exists m, parse_module_prop text = Ok m /\
            m !! py "id" = Some (py "bar") /\
            m !! py "name " = Some (py " a=b") /\
            m !! py "junk" = None /\
            size m = 2%nat.
Proof. eexists. split; [reflexivity | by vm_compute]. Qed.

(** ** Splitting at a separator *)

Lemma split_on_absent (sep : N) (s : str) :
  sep ∉ s -> split_on sep s = [s].
Proof.
  induction s as [|c s IH]; simpl; [done|].
  intros Hnot. apply not_elem_of_cons in Hnot as [Hne Hnot].
  destruct (N.eqb_spec c sep) as [->|_]; [done|].
  by rewrite IH.
Qed.

Lemma split_on_nonempty (sep : N) (s : str) : split_on sep s <> [].
Proof.
  destruct s as [|c s]; simpl; [done|].
  destruct (N.eqb c sep); [done|]. by destruct (split_on sep s).
Qed.

Lemma last_item_cons (l : str) (ls : list str) :
  ls <> [] -> last_item (l :: ls) = last_item ls.
Proof. unfold last_item. by destruct ls. Qed.

Lemma split_on_length (sep : N) (a b : str) :
  (2 <= length (split_on sep (a ++ sep :: b)))%nat.
Proof.
  induction a as [|c a IH]; simpl.
  - rewrite N.eqb_refl. pose proof (split_on_nonempty sep b).
    destruct (split_on sep b); simpl; [done | lia].
  - destruct (N.eqb c sep); simpl; [lia|].
    destruct (split_on sep (a ++ sep :: b)); simpl in *; lia.
Qed.

(** After a separator, only what follows it counts. *)
Lemma last_item_split_on_app (sep : N) (a b : str) :
  last_item (split_on sep (a ++ sep :: b)) = last_item (split_on sep b).
Proof.
  induction a as [|c a IH]; simpl.
  - rewrite N.eqb_refl. apply last_item_cons, split_on_nonempty.
  - destruct (N.eqb c sep).
    + rewrite last_item_cons by apply split_on_nonempty. apply IH.
    + rewrite <- IH. pose proof (split_on_length sep a b) as Hlen.
      destruct (split_on sep (a ++ sep :: b)) as [|l [|l' ls]];
        simpl in Hlen; [lia | lia | done].
Qed.

Lemma last_occurrence (sep : N) (s : str) :
  sep ∈ s -> exists a b, s = a ++ sep :: b /\ sep ∉ b.
Proof.
  induction s as [|c s IH]; intros Hin; [by apply elem_of_nil in Hin|].
  destruct (decide (sep ∈ s)) as [Hs|Hs].
  - destruct (IH Hs) as (a & b & -> & Hb). by exists (c :: a), b.
  - apply elem_of_cons in Hin as [->|Hin]; [|done]. by exists [], s.
Qed.

(** [s.split(sep)[-1]] is the last segment of [s]. *)
Lemma last_item_split_on (sep : N) (s : str) :
  last_segment sep s (last_item (split_on sep s)).
Proof.
  destruct (decide (sep ∈ s)) as [Hin|Hout].
  - destruct (last_occurrence _ _ Hin) as (a & b & -> & Hb).
    rewrite last_item_split_on_app, (split_on_absent _ _ Hb).
    split; [done|]. right. by exists a.
  - rewrite (split_on_absent _ _ Hout). split; [done | by left].
Qed.

(** ** The GraphQL client *)

Section Client.

Variable requests_post : str -> str -> result Response.

(** The nested lookup never raises: anything that is not a dict where
    one is expected counts as no repository. *)
Lemma nested_lookup (body : pyval) :
  try_except
    (let* data := py_get body (py "data") in
     let* repository := py_get data (py "repository") in
     Ok repository)
    AttributeError (Ok PNone) = Ok (repository_of body).
Proof.
  unfold repository_of.
  destruct body as [| | | | | |d]; try reflexivity.
  cbn [py_get bind]. destruct (d !! py "data") as [data|]; [|reflexivity].
  cbn [default]. destruct data; reflexivity.
Qed.

Lemma query_repository_decoded (token owner name query : str)
    (resp : Response) (body : pyval) :
  requests_post (py "bearer " ++ token) (repository_query owner name query)
    = Ok resp ->
  ok resp = true -> json resp = Ok body ->
  query_repository requests_post token owner name query = Ok (repository_of body).
Proof.
  intros Hpost Hok Hjson.
  unfold query_repository, graphql_query.
  rewrite Hpost. cbn [bind]. rewrite Hok, Hjson. apply nested_lookup.
Qed.

Lemma query_repository_not_ok (token owner name query : str)
    (resp : Response) :
  requests_post (py "bearer " ++ token) (repository_query owner name query)
    = Ok resp ->
  ok resp = false ->
  query_repository requests_post token owner name query = Ok PNone.
Proof.
  intros Hpost Hok.
  unfold query_repository, graphql_query.
  rewrite Hpost. cbn [bind]. rewrite Hok. reflexivity.
Qed.

Lemma query_repository_transport (token owner name query : str) (e : exn) :
  requests_post (py "bearer " ++ token) (repository_query owner name query)
    = Raise e ->
  query_repository requests_post token owner name query = Raise e.
Proof.
  intros Hpost.
  unfold query_repository, graphql_query.
  rewrite Hpost. reflexivity.
Qed.

Lemma query_repository_undecodable (token owner name query : str)
    (resp : Response) (e : exn) :
  requests_post (py "bearer " ++ token) (repository_query owner name query)
    = Ok resp ->
  ok resp = true -> json resp = Raise e ->
  query_repository requests_post token owner name query = Raise e.
Proof.
  intros Hpost Hok Hjson.
  unfold query_repository, graphql_query.
  rewrite Hpost. cbn [bind]. rewrite Hok, Hjson. reflexivity.
Qed.

(** The loop over well-formed entries appends one URL per entry. *)
Lemma sponsor_links_entries (items : list pyval)
    (entries : list (pyval * str)) (links : list pyval) :
  Forall2 funding_entry items entries ->
  sponsor_links items links = Ok (links ++ map sponsor_url entries).
Proof.
  intros Hall. revert links.
  induction Hall as [|item e items entries (d & -> & Hp & Hu) _ IH];
    intros links.
  - simpl. by rewrite app_nil_r.
  - assert (sponsor_links (PDict d :: items) links =
            sponsor_links items (links ++ [sponsor_url e])) as ->.
    { cbn [sponsor_links py_getitem]. rewrite Hp. cbn [bind].
      unfold sponsor_url.
      destruct (py_eq_str e.1 (py "GITHUB")); rewrite Hu; reflexivity. }
    rewrite IH, <- app_assoc. reflexivity.
Qed.

End Client.

(** ** The module resolver *)

Section Resolver.

Variable requests_post : str -> str -> result Response.

(** What a returned record is made of. *)
Lemma generate_module_inv (token : str) (repo : Repository) (r : Module) :
  generate_module requests_post token repo = Ok (Some r) ->
  exists (module_prop : gmap str str) (donate_urls : list pyval)
         (homepage : pyval),
    get_module_prop repo = Ok (Some module_prop) /\
    (if truthy (module_prop !! py "updateJson") then
       module_prop !! py "updateJson" = Some (mod_provider r) /\
       mod_changelog r = [] /\
       mod_kind r = py "update-json"
     else
       mod_provider r = ssh_url repo /\
       get_changelog repo = Ok (mod_changelog r) /\
       mod_kind r = py "git") /\
    get_sponsor_url requests_post token (owner_login repo) (name repo) = Ok donate_urls /\
    meta_donate (mod_metadata r) =
      match donate_urls with [] => PStr [] | first :: _ => first end /\
    get_homepage_url requests_post token (owner_login repo) (name repo) = Ok homepage /\
    meta_homepage (mod_metadata r) =
      (if is_none homepage then PStr [] else homepage) /\
    module_prop !! py "id" = Some (mod_id r) /\
    get_license repo = Ok (meta_license (mod_metadata r)) /\
    meta_source (mod_metadata r) = clone_url repo /\
    meta_support (mod_metadata r) =
      (if has_issues repo then html_url repo ++ py "/issues" else []).
Proof.
  unfold generate_module.
  destruct (get_module_prop repo) as [[mp|]|e]; cbn [bind]; try discriminate.
  intros H. exists mp.
  apply bind_ok in H as ([[provider changelog] kind] & Hkind & H).
  apply bind_ok in H as (urls & Hurls & H).
  apply bind_ok in H as (hp & Hhp & H).
  apply bind_ok in H as (idv & Hid & H).
  apply bind_ok in H as (lic & Hlic & H).
  injection H as <-. exists urls, hp.
  cbn [mod_id mod_kind mod_provider mod_changelog mod_metadata meta_license
       meta_homepage meta_source meta_donate meta_support].
  unfold prop_getitem in Hid.
  destruct (mp !! py "id") as [idv'|] eqn:Hidv; [|discriminate].
  injection Hid as ->.
  split; [done|]. split; [|by repeat split].
  destruct (truthy (mp !! py "updateJson")) eqn:Htruthy.
  - apply bind_ok in Hkind as (p & Hp & Hkind). injection Hkind as <- <- <-.
    unfold prop_getitem in Hp.
    destruct (mp !! py "updateJson"); [|discriminate].
    by injection Hp as ->.
  - apply bind_ok in Hkind as (c & Hc & Hkind). by injection Hkind as <- <- <-.
Qed.

(** The resolver returns a record whenever the descriptor has an [id]
    and each lookup it makes returns. *)
Lemma generate_module_returns (token : str) (repo : Repository)
    (module_prop : gmap str str) (changelog id license : str)
    (donate_urls : list pyval) (homepage : pyval) :
  get_module_prop repo = Ok (Some module_prop) ->
  get_changelog repo = Ok changelog ->
  get_sponsor_url requests_post token (owner_login repo) (name repo) = Ok donate_urls ->
  get_homepage_url requests_post token (owner_login repo) (name repo) = Ok homepage ->
  module_prop !! py "id" = Some id ->
  get_license repo = Ok license ->
  exists r, generate_module requests_post token repo = Ok (Some r) /\ mod_id r = id.
Proof.
  intros Hprop Hlog Hurls Hhp Hid Hlic.
  unfold generate_module.
  rewrite Hprop. cbn [bind].
  destruct (truthy (module_prop !! py "updateJson")) eqn:Htruthy.
  - unfold prop_getitem.
    destruct (module_prop !! py "updateJson") as [v|]; [|discriminate].
    cbn [bind]. rewrite Hurls. cbn [bind]. rewrite Hhp. cbn [bind].
    rewrite Hid. cbn [bind]. rewrite Hlic. cbn [bind]. by eexists.
  - rewrite Hlog. cbn [bind]. rewrite Hurls. cbn [bind]. rewrite Hhp.
    cbn [bind]. unfold prop_getitem. rewrite Hid. cbn [bind].
    rewrite Hlic. cbn [bind]. by eexists.
Qed.

Lemma truthy_spec (v : option str) :
  truthy v = true <-> exists s, v = Some s /\ s <> [].
Proof.
  split.
  - destruct v as [[|c s]|]; simpl; try discriminate. intros _. by eexists.
  - intros (s & -> & Hs). by destruct s.
Qed.

(** The changelog probe returns the download URL of the file it found,
    or the empty string when there is none. *)
Lemma get_changelog_inv (repo : Repository) (changelog : str) :
  get_changelog repo = Ok changelog ->
  (exists f, repo_get_contents repo (py "changelog.md") = Ok (AFile f) /\
             changelog = download_url f) \/
  (repo_get_contents repo (py "changelog.md") = Raise UnknownObjectException /\
   changelog = []).
Proof.
  unfold get_changelog.
  destruct (repo_get_contents repo (py "changelog.md")) as [[f|l]|e];
    cbn [bind as_file try_except exn_eqb].
  - intros [= <-]. left. by exists f.
  - discriminate.
  - destruct e; cbn; try discriminate. intros [= <-]. by right.
Qed.

End Resolver.

(** ** Kind, provider and changelog of a module record *)

Section Records.

Variable requests_post : str -> str -> result Response.

(** C1. In the record produced for a repository with a descriptor, the
    kind is [update-json] exactly when the descriptor maps [updateJson]
    to a non-empty value; the provider is then that value and the
    changelog is empty. Otherwise the kind is [git], the provider is the
    SSH clone URL, and the changelog is the download URL of
    [changelog.md] when that file exists and empty when it does not; so a
    non-empty changelog means kind [git] and an existing file. *)
Theorem module_kind (token : str) (repo : Repository) (r : Module) :
  generate_module requests_post token repo = Ok (Some r) ->
  exists module_prop : gmap str str,
    get_module_prop repo = Ok (Some module_prop) /\
    (mod_kind r = py "update-json" <->
       exists v, module_prop !! py "updateJson" = Some v /\ v <> []) /\
    (forall v, module_prop !! py "updateJson" = Some v -> v <> [] ->
       mod_kind r = py "update-json" /\
       mod_provider r = v /\
       mod_changelog r = []) /\
    ((~ exists v, module_prop !! py "updateJson" = Some v /\ v <> []) ->
       mod_kind r = py "git" /\
       mod_provider r = ssh_url repo /\
       ((exists f,
            repo_get_contents repo (py "changelog.md") = Ok (AFile f) /\
            mod_changelog r = download_url f) \/
        (repo_get_contents repo (py "changelog.md")
           = Raise UnknownObjectException /\
         mod_changelog r = []))) /\
    (mod_changelog r <> [] ->
       mod_kind r = py "git" /\
       exists f,
         repo_get_contents repo (py "changelog.md") = Ok (AFile f) /\
         mod_changelog r = download_url f).
Proof.
  intros Hgen.
  apply generate_module_inv in Hgen
    as (mp & urls & hp & Hprop & Hkind & _).
  exists mp. split; [done|].
  destruct (truthy (mp !! py "updateJson")) eqn:Htruthy.
  - destruct Hkind as (Hprov & Hlog & Hk).
    pose proof Htruthy as Hv. apply truthy_spec in Hv as (v & Hv & Hne).
    split; [split; [by exists v | done]|].
    split; [intros v' Hv' _; rewrite Hv' in Hprov; by injection Hprov as ->|].
    split; [intros Hno; destruct Hno; by exists v|].
    intros Hlog'. by rewrite Hlog in Hlog'.
  - destruct Hkind as (Hprov & Hlog & Hk).
    assert (~ exists v, mp !! py "updateJson" = Some v /\ v <> []) as Hno.
    { intros Hv. apply truthy_spec in Hv. by rewrite Htruthy in Hv. }
    apply get_changelog_inv in Hlog.
    split; [split; [rewrite Hk; by vm_compute | done]|].
    split; [intros v Hv Hne; destruct Hno; by exists v|].
    split; [done|].
    intros Hne. split; [done|].
    destruct Hlog as [Hf|[_ Hempty]]; done.
Qed.

(** ** Funding links *)

Lemma py_eq_str_spec (v : pyval) (s : str) :
  py_eq_str v s = true <-> v = PStr s.
Proof.
  unfold py_eq_str, str_eqb. split.
  - destruct v; try discriminate. intros H.
    apply bool_decide_eq_true in H. by subst.
  - intros ->. by apply bool_decide_eq_true.
Qed.

(** C4. For a response whose repository result holds a list of
    well-formed funding entries, the client returns one URL per entry, in
    order: an entry of platform [GITHUB] gives
    [https://github.com/sponsors/] followed by the last [/]-separated
    segment of its URL, any other entry gives its URL unchanged. The
    [donate] field of the module is the first of these URLs, or the
    empty string when there is none: the resolver returns a record with
    this [donate] whenever the descriptor has an [id] and its other
    lookups return, and every record it returns has it. *)
Theorem funding_links_rewritten (token : str) (repo : Repository)
    (resp : Response) (body : pyval) (rd : gmap str pyval)
    (items : list pyval) (entries : list (pyval * str)) :
  requests_post (py "bearer " ++ token)
    (repository_query (owner_login repo) (name repo) funding_query)
    = Ok resp ->
  ok resp = true ->
  json resp = Ok body ->
  repository_of body = PDict rd ->
  rd !! py "fundingLinks" = Some (PList items) ->
  Forall2 funding_entry items entries ->
  get_sponsor_url requests_post token (owner_login repo) (name repo)
    = Ok (map sponsor_url entries) /\
  length (map sponsor_url entries) = length items /\
  Forall (fun e =>
            (fst e = PStr (py "GITHUB") ->
             exists seg, last_segment slash (snd e) seg /\
               sponsor_url e = PStr (py "https://github.com/sponsors/" ++ seg)) /\
            (fst e <> PStr (py "GITHUB") -> sponsor_url e = PStr (snd e)))
         entries /\
  (forall r, generate_module requests_post token repo = Ok (Some r) ->
     meta_donate (mod_metadata r) =
       match entries with
       | [] => PStr []
       | first :: _ => sponsor_url first
       end) /\
  (forall module_prop id,
     get_module_prop repo = Ok (Some module_prop) ->
     module_prop !! py "id" = Some id ->
     (truthy (module_prop !! py "updateJson") = true \/
      exists changelog, get_changelog repo = Ok changelog) ->
     (exists homepage,
        get_homepage_url requests_post token (owner_login repo) (name repo)
          = Ok homepage) ->
     (exists license, get_license repo = Ok license) ->
     exists r,
       generate_module requests_post token repo = Ok (Some r) /\
       mod_id r = id /\
       meta_donate (mod_metadata r) =
         match entries with
         | [] => PStr []
         | first :: _ => sponsor_url first
         end).
Proof.
  intros Hpost Hok Hjson Hrepo Hlinks Hitems.
  assert (get_sponsor_url requests_post token (owner_login repo) (name repo)
          = Ok (map sponsor_url entries)) as Hurls.
  { unfold get_sponsor_url. fold funding_query.
    rewrite (query_repository_decoded _ _ _ _ _ _ _ Hpost Hok Hjson), Hrepo.
    cbn [bind is_none py_getitem]. rewrite Hlinks. cbn [bind py_iter].
    by rewrite (sponsor_links_entries _ _ [] Hitems). }
  split; [done|].
  split; [rewrite length_map; symmetry; by eapply Forall2_length|].
  split.
  - apply Forall_forall. intros e _. unfold sponsor_url. split.
    + intros He. apply py_eq_str_spec in He as ->.
      eexists. split; [apply last_item_split_on | done].
    + intros He. destruct (py_eq_str e.1 (py "GITHUB")) eqn:Heq; [|done].
      by apply py_eq_str_spec in Heq.
  - split.
    + intros r Hgen.
      apply generate_module_inv in Hgen
        as (mp & urls & hp & _ & _ & Hurls' & Hdonate & _).
      rewrite Hurls in Hurls'. injection Hurls' as <-.
      rewrite Hdonate. by destruct entries.
    + intros mp idv Hprop Hid Hkind (hp & Hhp) (lic & Hlic).
      unfold generate_module. rewrite Hprop. cbn [bind].
      destruct (truthy (mp !! py "updateJson")) eqn:Htruthy.
      * unfold prop_getitem at 1.
        destruct (mp !! py "updateJson") as [v|]; [|discriminate].
        cbn [bind]. rewrite Hurls. cbn [bind]. rewrite Hhp. cbn [bind].
        unfold prop_getitem. rewrite Hid. cbn [bind]. rewrite Hlic.
        cbn [bind]. eexists. split; [reflexivity|]. split; [reflexivity|].
        cbn [mod_metadata meta_donate]. by destruct entries.
      * destruct Hkind as [|[c Hc]]; [discriminate|].
        rewrite Hc. cbn [bind]. rewrite Hurls. cbn [bind]. rewrite Hhp.
        cbn [bind]. unfold prop_getitem. rewrite Hid. cbn [bind].
        rewrite Hlic. cbn [bind]. eexists. split; [reflexivity|].
        split; [reflexivity|].
        cbn [mod_metadata meta_donate]. by destruct entries.
Qed.

(** When the nested lookup finds no repository. *)
Lemma repository_of_none (body : pyval) :
  repository_of body = PNone <-> lacks_repository body.
Proof.
  unfold repository_of, lacks_repository. split.
  - intros Hnone. destruct body as [| | | | | |d]; try (by left).
    right. exists d. split; [done|].
    destruct (d !! py "data") as [data|]; [|by left]. right.
    destruct data as [| | | | | |d']; try (left; by eexists).
    right. exists d'. split; [done|].
    destruct (d' !! py "repository") as [r|]; [|by left].
    right. cbn in Hnone. by subst.
  - intros [Hno|(d & -> & Hcases)].
    + destruct body; try done. by destruct (Hno d).
    + destruct Hcases as [->|[(v & -> & Hv)|(d' & -> & [->| ->])]]; try done.
      destruct v as [| | | | | |dv]; try done. by destruct (Hv dv).
Qed.

(** C5, as the client behaves. A response that is not OK, and an OK
    response whose decoded body has no repository, give the empty list;
    a body has no repository exactly when it is no object, or its [data]
    is missing, null or no object, or the [repository] inside is missing
    or null. An exception of the transport, or of decoding the body,
    reaches the caller, and a [repository] that is there, not null and no
    object raises [TypeError]. *)
Theorem funding_links_without_repository (token owner name : str) :
  let posted :=
    requests_post (py "bearer " ++ token)
      (repository_query owner name funding_query) in
  (forall resp, posted = Ok resp -> ok resp = false ->
     get_sponsor_url requests_post token owner name = Ok []) /\
  (forall resp body, posted = Ok resp -> ok resp = true ->
     json resp = Ok body -> repository_of body = PNone ->
     get_sponsor_url requests_post token owner name = Ok []) /\
  (forall e, posted = Raise e ->
     get_sponsor_url requests_post token owner name = Raise e) /\
  (forall resp e, posted = Ok resp -> ok resp = true ->
     json resp = Raise e ->
     get_sponsor_url requests_post token owner name = Raise e) /\
  (forall body, repository_of body = PNone <-> lacks_repository body) /\
  (forall resp body, posted = Ok resp -> ok resp = true ->
     json resp = Ok body -> lacks_repository body ->
     get_sponsor_url requests_post token owner name = Ok []) /\
  (forall resp body, posted = Ok resp -> ok resp = true ->
     json resp = Ok body ->
     repository_of body <> PNone -> (forall rd, repository_of body <> PDict rd) ->
     get_sponsor_url requests_post token owner name = Raise TypeError).
Proof.
  cbn zeta.
  assert (forall body, repository_of body = PNone <-> lacks_repository body)
    as Hlacks by apply repository_of_none.
  unfold get_sponsor_url. fold funding_query.
  split; [|split; [|split; [|split; [|split; [done|split]]]]].
  - intros resp Hpost Hok.
    by rewrite (query_repository_not_ok _ _ _ _ _ _ Hpost Hok).
  - intros resp body Hpost Hok Hjson Hnone.
    by rewrite (query_repository_decoded _ _ _ _ _ _ _ Hpost Hok Hjson), Hnone.
  - intros e Hpost.
    by rewrite (query_repository_transport _ _ _ _ _ _ Hpost).
  - intros resp e Hpost Hok Hjson.
    by rewrite (query_repository_undecodable _ _ _ _ _ _ _ Hpost Hok Hjson).
  - intros resp body Hpost Hok Hjson Hnone. apply Hlacks in Hnone.
    by rewrite (query_repository_decoded _ _ _ _ _ _ _ Hpost Hok Hjson), Hnone.
  - intros resp body Hpost Hok Hjson Hnone Hdict.
    rewrite (query_repository_decoded _ _ _ _ _ _ _ Hpost Hok Hjson).
    cbn [bind]. destruct (repository_of body); try done.
    by destruct (Hdict d).
Qed.

(** C6, as the resolver behaves. When the descriptor exists and its
    mapping has no [id], no record is returned: the resolver raises, and
    it is the lookup of [id] that raises [KeyError] once the lookups
    before it have returned. *)
Theorem descriptor_without_id (token : str) (repo : Repository)
    (module_prop : gmap str str) :
  get_module_prop repo = Ok (Some module_prop) ->
  module_prop !! py "id" = None ->
  (exists e, generate_module requests_post token repo = Raise e) /\
  ((truthy (module_prop !! py "updateJson") = true \/
    exists changelog, get_changelog repo = Ok changelog) ->
   (exists donate_urls,
      get_sponsor_url requests_post token (owner_login repo) (name repo)
        = Ok donate_urls) ->
   (exists homepage,
      get_homepage_url requests_post token (owner_login repo) (name repo)
        = Ok homepage) ->
   generate_module requests_post token repo = Raise KeyError).
Proof.
  intros Hprop Hid. split.
  - destruct (generate_module requests_post token repo) as [[r|]|e] eqn:Hgen.
    + apply generate_module_inv in Hgen
        as (mp & urls & hp & Hprop' & _ & _ & _ & _ & _ & Hid' & _).
      rewrite Hprop in Hprop'. injection Hprop' as <-.
      by rewrite Hid in Hid'.
    + unfold generate_module in Hgen. rewrite Hprop in Hgen.
      cbn [bind] in Hgen.
      apply bind_ok in Hgen as ([[provider changelog] kind] & _ & Hgen).
      do 4 (apply bind_ok in Hgen as (? & _ & Hgen)). discriminate.
    + by exists e.
  - intros Hkind (urls & Hurls) (hp & Hhp).
    unfold generate_module. rewrite Hprop. cbn [bind].
    destruct (truthy (module_prop !! py "updateJson")) eqn:Htruthy.
    + unfold prop_getitem at 1.
      destruct (module_prop !! py "updateJson") as [v|]; [|discriminate].
      cbn [bind]. rewrite Hurls. cbn [bind]. rewrite Hhp. cbn [bind].
      unfold prop_getitem. by rewrite Hid.
    + destruct Hkind as [|[c Hc]]; [discriminate|].
      rewrite Hc. cbn [bind]. rewrite Hurls. cbn [bind]. rewrite Hhp.
      cbn [bind]. unfold prop_getitem. by rewrite Hid.
Qed.

End Records.

(** ** The records of the sample repositories *)

Lemma module_kind_witness :
  exists r module_prop,
    generate_module unauthorized sample_token repo_git = Ok (Some r) /\
    get_module_prop repo_git = Ok (Some module_prop) /\
    (mod_kind r = py "update-json" <->
       exists v, module_prop !! py "updateJson" = Some v /\ v <> []).
Proof.
  eexists.
  destruct (module_kind unauthorized sample_token repo_git _ eq_refl)
    as (module_prop & Hprop & Hkind & _).
  exists module_prop. split; [reflexivity|]. split; [exact Hprop | exact Hkind].
Defined.

(** A git module: its changelog is the download URL of the file. *)
Example repo_git_record :
  exists r, generate_module unauthorized sample_token repo_git = Ok (Some r) /\
            mod_id r = py "foo" /\
            mod_kind r = py "git" /\
            mod_provider r = py "git@github.com:octo/foo.git" /\
            mod_changelog r = py "https://raw.example/changelog.md".
Proof. eexists. split; [reflexivity|]. by vm_compute. Qed.

(** An update-json module: its changelog is empty, whatever the
    repository holds. *)
Example repo_update_json_record :
  exists r, generate_module unauthorized sample_token repo_update_json
              = Ok (Some r) /\
            mod_kind r = py "update-json" /\
            mod_provider r = py "https://x.example/update.json" /\
            mod_changelog r = [].
Proof. eexists. split; [reflexivity|]. by vm_compute. Qed.

Lemma funding_links_rewritten_witness :
  get_sponsor_url (post_answering true (Ok sample_funding_body)) sample_token
    (owner_login repo_git) (name repo_git)
  = Ok (map sponsor_url sample_funding) /\
  exists r,
    generate_module (post_answering true (Ok sample_funding_body))
      sample_token repo_git = Ok (Some r) /\
    mod_id r = py "foo" /\
    meta_donate (mod_metadata r)
      = sponsor_url (PStr (py "GITHUB"), py "https://github.com/sponsors-org").
Proof.
  assert (Forall2 funding_entry (map funding_item sample_funding)
            sample_funding) as Hentries.
  { repeat constructor; eexists; (split; [reflexivity|]); split; reflexivity. }
  destruct (funding_links_rewritten
              (post_answering true (Ok sample_funding_body))
              sample_token repo_git
              {| ok := true; json := Ok sample_funding_body |}
              sample_funding_body
              (list_to_map
                 [(py "fundingLinks", PList (map funding_item sample_funding));
                  (py "homepageUrl", PNone)])
              (map funding_item sample_funding) sample_funding
              eq_refl eq_refl eq_refl eq_refl eq_refl Hentries)
    as (Hurls & _ & _ & _ & Hrecord).
  split; [exact Hurls|].
  eapply Hrecord.
  - reflexivity.
  - reflexivity.
  - right. eexists. reflexivity.
  - eexists. reflexivity.
  - eexists. reflexivity.
Defined.

(** The example of the specification: the first entry wins, and an entry
    of the sponsorship platform is rewritten. *)
Example funding_links_sample :
  map sponsor_url sample_funding =
    [PStr (py "https://github.com/sponsors/sponsors-org");
     PStr (py "https://x.example")] /\
  exists r,
    generate_module (post_answering true (Ok sample_funding_body))
      sample_token repo_git = Ok (Some r) /\
    meta_donate (mod_metadata r)
      = PStr (py "https://github.com/sponsors/sponsors-org").
Proof. split; [reflexivity|]. eexists. split; reflexivity. Qed.

(** C5, where the claim fails: an exception of the transport reaches the
    caller, and so does the [KeyError] of a repository object without
    [fundingLinks]. *)
Lemma funding_links_raise :
  get_sponsor_url (post_raising RequestException) sample_token
    (py "octo") (py "foo") = Raise RequestException /\
  get_sponsor_url (post_answering true (Ok (body_with_repository (dict []))))
    sample_token (py "octo") (py "foo") = Raise KeyError.
Proof. split; reflexivity. Qed.

Lemma funding_links_without_repository_witness :
  get_sponsor_url unauthorized sample_token (py "octo") (py "foo") = Ok [] /\
  get_sponsor_url (post_answering true (Ok (dict []))) sample_token
    (py "octo") (py "foo") = Ok [] /\
  get_sponsor_url (post_answering true (Ok (body_with_repository PNone)))
    sample_token (py "octo") (py "foo") = Ok [] /\
  get_sponsor_url (post_answering true (Ok (body_with_repository (PInt 5))))
    sample_token (py "octo") (py "foo") = Raise TypeError.
Proof.
  split; [|split; [|split]].
  3: { refine (proj1 (proj2 (proj2 (proj2 (proj2 (proj2
         (funding_links_without_repository
            (post_answering true (Ok (body_with_repository PNone)))
            sample_token (py "octo") (py "foo")))))))
         _ (body_with_repository PNone) eq_refl eq_refl eq_refl _).
       right. eexists. split; [reflexivity|]. right. right.
       eexists. split; [reflexivity|]. by right. }
  3: { refine (proj2 (proj2 (proj2 (proj2 (proj2 (proj2
         (funding_links_without_repository
            (post_answering true (Ok (body_with_repository (PInt 5))))
            sample_token (py "octo") (py "foo")))))))
         _ (body_with_repository (PInt 5)) eq_refl eq_refl eq_refl _ _).
       - discriminate.
       - intros rd. discriminate. }
  - exact (proj1 (funding_links_without_repository unauthorized
                    sample_token (py "octo") (py "foo"))
             _ eq_refl eq_refl).
  - exact (proj1 (proj2 (funding_links_without_repository
                           (post_answering true (Ok (dict [])))
                           sample_token (py "octo") (py "foo")))
             _ (dict []) eq_refl eq_refl eq_refl eq_refl).
Defined.

(** C6, where the claim fails: the descriptor exists, its mapping has no
    [id], and the resolver raises instead of returning a record. *)
Lemma descriptor_without_id_raises :
  exists module_prop,
    get_module_prop repo_without_id = Ok (Some module_prop) /\
    module_prop !! py "id" = None /\
    generate_module unauthorized sample_token repo_without_id = Raise KeyError.
Proof. eexists. split; [reflexivity|]. split; reflexivity. Qed.

Lemma descriptor_without_id_witness :
  generate_module unauthorized sample_token repo_without_id = Raise KeyError.
Proof.
  refine (proj2 (descriptor_without_id unauthorized sample_token
                   repo_without_id _ eq_refl eq_refl) _ _ _).
  - right. eexists. reflexivity.
  - eexists. reflexivity.
  - eexists. reflexivity.
Defined.

(** ** The catalog builder *)

Section Catalog.

Variable requests_post : str -> str -> result Response.
Variable get_user_repos : str -> result (list Repository).

(** The parser returns "no value" exactly for a 404 on the descriptor. *)
Lemma get_module_prop_none (repo : Repository) :
  get_module_prop repo = Ok None <-> has_descriptor repo = false.
Proof.
  unfold get_module_prop, has_descriptor.
  destruct (repo_get_contents repo (py "module.prop")) as [[f|l]|e];
    cbn [bind as_file].
  - unfold decode_utf8. destruct (decoded_text f) as [prop|]; cbn [bind].
    + unfold parse_module_prop. rewrite prop_lines_fold. by cbn.
    + by cbn.
  - by cbn.
  - destruct e; by cbn.
Qed.

(** The resolver returns "no value" exactly when there is no
    descriptor. *)
Lemma generate_module_none (token : str) (repo : Repository) :
  generate_module requests_post token repo = Ok None <->
  has_descriptor repo = false.
Proof.
  rewrite <- get_module_prop_none. unfold generate_module.
  destruct (get_module_prop repo) as [[mp|]|e]; cbn [bind];
    [|done | done].
  split; [|done]. intros Hgen.
  apply bind_ok in Hgen as ([[provider changelog] kind] & _ & Hgen).
  do 4 (apply bind_ok in Hgen as (? & _ & Hgen)). discriminate.
Qed.

(** The loop returns when every call of the resolver returns, and then
    holds what it had followed by the records returned, in order. *)
Lemma collect_modules_spec (token : str) (repos : list Repository)
    (modules result : list Module) :
  collect_modules requests_post token repos modules = Ok result <->
  exists results : list (option Module),
    Forall2 (fun repo res =>
               generate_module requests_post token repo = Ok res)
            repos results /\
    result = modules ++ omap id results.
Proof.
  revert modules. induction repos as [|repo rest IH]; intros modules.
  - cbn. split.
    + intros [= <-]. exists []. split; [constructor | by rewrite app_nil_r].
    + intros (results & Hall & ->). apply Forall2_nil_inv_l in Hall as ->.
      cbn. by rewrite app_nil_r.
  - cbn [collect_modules]. split.
    + intros Hloop. apply bind_ok in Hloop as (res & Hres & Hloop).
      destruct res as [m|]; apply IH in Hloop as (results & Hall & ->).
      * exists (Some m :: results). split; [by constructor|].
        cbn. by rewrite <- app_assoc.
      * exists (None :: results). split; [by constructor | done].
    + intros (results & Hall & ->).
      apply Forall2_cons_inv_l in Hall as (res & results' & Hres & Hall & ->).
      rewrite Hres. cbn [bind].
      destruct res as [m|]; apply IH; exists results'; (split; [done|]).
      * cbn. by rewrite <- app_assoc.
      * done.
Qed.

Lemma records_and_skipped (token : str) (repos : list Repository)
    (results : list (option Module)) :
  Forall2 (fun repo res => generate_module requests_post token repo = Ok res)
          repos results ->
  Forall2 (fun repo res => res = None <-> has_descriptor repo = false)
          repos results /\
  (length (omap id results) +
   length (List.filter (fun repo => negb (has_descriptor repo)) repos)
   = length repos)%nat.
Proof.
  induction 1 as [|repo res repos results Hres _ [IHall IHlen]].
  - split; [constructor | done].
  - assert (res = None <-> has_descriptor repo = false) as Hnone.
    { rewrite <- (generate_module_none token), Hres.
      split; [by intros -> | by intros [= ->]]. }
    split; [by constructor|].
    destruct res as [m|].
    + assert (has_descriptor repo = true) as Hd.
      { destruct (has_descriptor repo); [done|].
        by destruct Hnone as [_ Hnone]; specialize (Hnone eq_refl). }
      change (omap id (Some m :: results)) with (m :: omap id results).
      cbn [List.filter length]. rewrite Hd. cbn [negb]. lia.
    + destruct Hnone as [Hnone _]. specialize (Hnone eq_refl).
      change (omap id (None :: results)) with (omap id results).
      cbn [List.filter length]. rewrite Hnone. cbn [negb length]. lia.
Qed.

(** C3. The builder calls the resolver on the repositories in the order
    the forge enumerates them and stores exactly the records returned, in
    that order: it returns whenever every call returns, and what it
    stores then skips exactly the repositories without a descriptor, so
    the records and those repositories add up to the repositories. *)
Theorem catalog_modules (api : GithubApi) (user_name : str)
    (repos : list Repository) :
  get_user_repos user_name = Ok repos ->
  (forall results : list (option Module),
      Forall2 (fun repo res =>
                 generate_module requests_post (api_token api) repo = Ok res)
              repos results ->
      generate_modules requests_post get_user_repos api user_name =
        Ok {| api_token := api_token api;
              config_modules := ModuleList (omap id results) |}) /\
  (forall api' : GithubApi,
      generate_modules requests_post get_user_repos api user_name = Ok api' ->
      exists results : list (option Module),
        Forall2 (fun repo res =>
                   generate_module requests_post (api_token api) repo = Ok res)
                repos results /\
        config_modules api' = ModuleList (omap id results) /\
        Forall2 (fun repo res => res = None <-> has_descriptor repo = false)
                repos results /\
        (length (omap id results) +
         length (List.filter (fun repo => negb (has_descriptor repo)) repos)
         = length repos)%nat).
Proof.
  intros Hrepos. unfold generate_modules. rewrite Hrepos. cbn [bind]. split.
  - intros results Hall.
    assert (collect_modules requests_post (api_token api) repos []
            = Ok (omap id results)) as ->; [|done].
    apply collect_modules_spec. by exists results.
  - intros api' Hgen. apply bind_ok in Hgen as (modules & Hloop & Hgen).
    injection Hgen as <-.
    apply collect_modules_spec in Hloop as (results & Hall & ->).
    exists results. split; [done|]. split; [done|].
    by apply (records_and_skipped (api_token api)).
Qed.

End Catalog.

Lemma catalog_modules_witness :
  exists api' results,
    generate_modules unauthorized sample_account
      (GithubApi_init sample_token) (py "octo") = Ok api' /\
    config_modules api' = ModuleList (omap id results) /\
    (length (omap id results) + 1 = 3)%nat.
Proof.
  eexists.
  destruct (proj2 (catalog_modules unauthorized sample_account
                     (GithubApi_init sample_token) (py "octo") _ eq_refl)
              _ eq_refl)
    as (results & _ & Hmodules & _ & Hlen).
  exists results. split; [reflexivity|]. split; [exact Hmodules | exact Hlen].
Defined.

(** The end-to-end example of the specification: of two repositories, one
    with [id=foo], no [updateJson] and a changelog, the other without
    descriptor, the catalog holds one record. *)
Example two_repositories_catalog :
  exists api' r,
    generate_modules unauthorized two_repositories
      (GithubApi_init sample_token) (py "octo") = Ok api' /\
    config_modules api' = ModuleList [r] /\
    mod_id r = py "foo" /\
    mod_kind r = py "git" /\
    mod_changelog r = py "https://raw.example/changelog.md".
Proof. do 2 eexists. split; [reflexivity|]. by vm_compute. Qed.

(** ** The push timestamp *)

Section PushedAt.

Variable requests_post : str -> str -> result Response.
Variable datetime : Type.
Variable dateutil_parse : str -> result datetime.

(** C7, as the client behaves. Without a repository result the
    operation returns "no value". With one, a [pushedAt] string that the
    parser accepts gives the parsed timestamp, and a [pushedAt] that is
    null, or no string at all, gives "no value". A repository object
    without the field raises [KeyError], and what the parser raises on a
    string it rejects reaches the caller. *)
Theorem pushed_at_lookup (token owner name : str) (resp : Response) :
  requests_post (py "bearer " ++ token)
    (repository_query owner name (py "pushedAt")) = Ok resp ->
  let pushed_at :=
    get_pushed_at requests_post datetime dateutil_parse token owner name in
  (ok resp = false -> pushed_at = Ok None) /\
  (forall body, ok resp = true -> json resp = Ok body ->
     (repository_of body = PNone -> pushed_at = Ok None) /\
     (forall rd, repository_of body = PDict rd ->
        (forall s t, rd !! py "pushedAt" = Some (PStr s) ->
           dateutil_parse s = Ok t -> pushed_at = Ok (Some t)) /\
        (forall v, rd !! py "pushedAt" = Some v ->
           (forall s, v <> PStr s) -> pushed_at = Ok None) /\
        (rd !! py "pushedAt" = None -> pushed_at = Raise KeyError) /\
        (forall s e, rd !! py "pushedAt" = Some (PStr s) ->
           dateutil_parse s = Raise e -> e <> TypeError ->
           pushed_at = Raise e))).
Proof.
  intros Hpost. cbn zeta. unfold get_pushed_at. split.
  - intros Hok. by rewrite (query_repository_not_ok _ _ _ _ _ _ Hpost Hok).
  - intros body Hok Hjson.
    rewrite (query_repository_decoded _ _ _ _ _ _ _ Hpost Hok Hjson).
    cbn [bind]. split; [by intros ->|].
    intros rd ->. cbn [is_none py_getitem]. repeat split.
    + intros s t -> Ht. cbn [bind parse]. by rewrite Ht.
    + intros v -> Hv. cbn [bind].
      destruct v; try reflexivity. by destruct (Hv s).
    + by intros ->.
    + intros s e -> He Hne. cbn [bind parse]. rewrite He. cbn.
      by destruct e.
Qed.

End PushedAt.

Lemma pushed_at_lookup_witness :
  get_pushed_at (post_answering true (Ok (pushed_at_body PNone)))
    str (parse_rejecting (py "soon")) sample_token (py "octo") (py "foo")
  = Ok None /\
  get_pushed_at
    (post_answering true (Ok (pushed_at_body (PStr (py "2024-05-01T10:00:00Z")))))
    str (parse_rejecting (py "soon")) sample_token (py "octo") (py "foo")
  = Ok (Some (py "2024-05-01T10:00:00Z")).
Proof.
  split.
  - refine (proj1 (proj2 (proj2 (proj2 (pushed_at_lookup
        (post_answering true (Ok (pushed_at_body PNone)))
        str (parse_rejecting (py "soon")) sample_token (py "octo") (py "foo")
        _ eq_refl) (pushed_at_body PNone) eq_refl eq_refl)
        (list_to_map [(py "pushedAt", PNone)]) eq_refl)) PNone eq_refl _).
    intros s. discriminate.
  - exact (proj1 (proj2 (proj2 (pushed_at_lookup
        (post_answering true
           (Ok (pushed_at_body (PStr (py "2024-05-01T10:00:00Z")))))
        str (parse_rejecting (py "soon")) sample_token (py "octo") (py "foo")
        _ eq_refl) _ eq_refl eq_refl)
        (list_to_map [(py "pushedAt", PStr (py "2024-05-01T10:00:00Z"))])
        eq_refl) _ _ eq_refl eq_refl).
Defined.

(** C7, where the claim fails: a string that the parser rejects makes the
    operation raise, and so does a repository object without the field. *)
Lemma pushed_at_raises :
  get_pushed_at (post_answering true (Ok (pushed_at_body (PStr (py "soon")))))
    str (parse_rejecting (py "soon")) sample_token (py "octo") (py "foo")
  = Raise ValueError /\
  get_pushed_at (post_answering true (Ok (body_with_repository (dict []))))
    str (parse_rejecting (py "soon")) sample_token (py "octo") (py "foo")
  = Raise KeyError.
Proof. split; reflexivity. Qed.

(** ** Patterns *)

Lemma glob_match_star (p : list glob_tok) (s : str) :
  glob_match (GStar :: p) s = true <->
  exists a b, s = a ++ b /\ glob_match p b = true.
Proof.
  induction s as [|c s IH].
  - cbn. rewrite orb_false_r. split.
    + intros H. by exists [], [].
    + intros (a & b & Heq & H). symmetry in Heq.
      apply app_eq_nil in Heq as [_ ->]. done.
  - change (glob_match (GStar :: p) (c :: s))
      with (glob_match p (c :: s) || glob_match (GStar :: p) s).
    rewrite orb_true_iff, IH. split.
    + intros [H|(a & b & -> & H)].
      * by exists [], (c :: s).
      * by exists (c :: a), b.
    + intros ([|c' a] & b & Heq & H).
      * left. by rewrite Heq.
      * right. injection Heq as -> ->. by exists a, b.
Qed.

Lemma glob_match_chars (lit s : str) :
  glob_match (map GChar lit) s = true <-> s = lit.
Proof.
  revert s. induction lit as [|c lit IH]; intros [|c' s]; cbn; try done.
  rewrite andb_true_iff, IH, N.eqb_eq. split.
  - by intros [-> ->].
  - by intros [= -> ->].
Qed.

(** [*.zip] matches the names that end in [.zip], a leading dot
    included. *)
Lemma glob_match_zip (n : str) :
  glob_match zip_pattern n = true <-> zip_name n.
Proof.
  unfold zip_pattern, zip_name. rewrite glob_match_star. split.
  - intros (a & b & -> & H). apply glob_match_chars in H as ->. by exists a.
  - intros (stem & ->). exists stem, (py ".zip").
    split; [done | by apply glob_match_chars].
Qed.

(** [[!.]*] matches the names that do not start with a dot. *)
Lemma glob_match_not_hidden (n : str) :
  glob_match not_hidden n = true <-> not_hidden_name n.
Proof.
  unfold not_hidden, not_hidden_name. destruct n as [|c rest].
  - split; [done | by intros (c & rest & H & _)].
  - change (glob_match [GNot (py "."); GStar] (c :: rest))
      with (negb (N.eqb c 46 || false) && glob_match [GStar] rest).
    rewrite orb_false_r, andb_true_iff, negb_true_iff, N.eqb_neq. split.
    + intros [Hc _]. by exists c, rest.
    + intros (c' & rest' & [= <- <-] & Hc). split; [done|].
      apply glob_match_star. exists rest, [].
      split; [by rewrite app_nil_r | done].
Qed.

(** ** Pruning *)

Lemma skip_it_loop_spec (files : list (str * node)) :
  skip_it_loop files = true <->
  exists file, file ∈ files /\ GITHUB_MAX_SIZE <= st_size (snd file).
Proof.
  induction files as [|file rest IH]; cbn.
  - split; [done | intros (f & Hin & _); by apply elem_of_nil in Hin].
  - destruct (Z.geb_spec (st_size file.2) GITHUB_MAX_SIZE) as [Hge|Hlt].
    + split; [|done]. intros _. exists file. split; [by left | lia].
    + rewrite IH. split.
      * intros (f & Hin & Hf). exists f. split; [by right | done].
      * intros (f & Hin & Hf). apply elem_of_cons in Hin as [->|Hin]; [lia|].
        by exists f.
Qed.

(** [skip_it] holds exactly for a directory with an archive at or above
    the limit directly inside it. *)
Lemma skip_it_spec (es : list (str * node)) :
  skip_it es = true <-> oversized es.
Proof.
  unfold skip_it, oversized, glob. rewrite skip_it_loop_spec. split.
  - intros ([n nd] & Hin & Hsize).
    apply list_elem_of_In, filter_In in Hin as [Hin Hmatch].
    exists n, nd. split; [by apply list_elem_of_In|].
    split; [by apply glob_match_zip | done].
  - intros (n & nd & Hin & Hzip & Hsize). exists (n, nd). split; [|done].
    apply list_elem_of_In, filter_In. split; [by apply list_elem_of_In|].
    by apply glob_match_zip.
Qed.

Lemma insert_sorted_perm (x : str) (l : list str) :
  insert_sorted x l ≡ₚ x :: l.
Proof.
  induction l as [|y l IH]; cbn; [done|].
  destruct (str_leb x y); [done|]. rewrite IH. apply perm_swap.
Qed.

(** [sorted] reorders and nothing else. *)
Lemma sorted_perm (l : list str) : sorted l ≡ₚ l.
Proof.
  induction l as [|x l IH]; cbn; [done|].
  by rewrite insert_sorted_perm, IH.
Qed.

(** In a directory, where names are unique, a name leads to its entry. *)
Lemma children_unique (l : list (str * node)) (n : str) (nd : node) :
  NoDup (map fst l) -> (n, nd) ∈ l -> children n l = own_entries nd.
Proof.
  induction l as [|[n0 nd0] l IH]; intros Hnodup Hin.
  - by apply elem_of_nil in Hin.
  - cbn in Hnodup. apply NoDup_cons in Hnodup as [Hfresh Hnodup].
    cbn [children]. unfold str_eqb. case_bool_decide as Heq.
    + subst n0. apply elem_of_cons in Hin as [[= ->]|Hin]; [done|].
      destruct Hfresh. apply list_elem_of_fmap. by exists (n, nd).
    + apply elem_of_cons in Hin as [[= -> ->]|Hin]; [done|]. by apply IH.
Qed.

Lemma entry_unique (l : list (str * node)) (n : str) (nd nd' : node) :
  NoDup (map fst l) -> (n, nd) ∈ l -> (n, nd') ∈ l -> nd' = nd.
Proof.
  induction l as [|[n0 nd0] l IH]; intros Hnodup Hin Hin'.
  - by apply elem_of_nil in Hin.
  - cbn in Hnodup. apply NoDup_cons in Hnodup as [Hfresh Hnodup].
    apply elem_of_cons in Hin as [[= -> ->]|Hin];
      apply elem_of_cons in Hin' as [Heq|Hin'].
    + by injection Heq as ->.
    + destruct Hfresh. apply list_elem_of_fmap. by exists (n0, nd').
    + injection Heq as -> ->. destruct Hfresh.
      apply list_elem_of_fmap. by exists (n0, nd).
    + by apply IH.
Qed.

Lemma filter_names_nodup (f : str * node -> bool) (l : list (str * node)) :
  NoDup (map fst l) -> NoDup (map fst (List.filter f l)).
Proof.
  induction l as [|e l IH]; cbn; [done|].
  intros Hnodup. apply NoDup_cons in Hnodup as [Hfresh Hnodup].
  destruct (f e); [|by apply IH].
  cbn. apply NoDup_cons. split; [|by apply IH].
  intros Hin. apply Hfresh.
  apply list_elem_of_fmap in Hin as (e' & -> & Hin).
  apply list_elem_of_fmap. exists e'. split; [done|].
  apply list_elem_of_In, filter_In in Hin as [Hin _].
  by apply list_elem_of_In.
Qed.

Lemma filter_filter (f g : str * node -> bool) (l : list (str * node)) :
  List.filter f (List.filter g l) = List.filter (fun e => f e && g e) l.
Proof.
  induction l as [|e l IH]; cbn; [done|].
  destruct (g e); cbn.
  - rewrite andb_true_r. destruct (f e); by rewrite IH.
  - by rewrite andb_false_r.
Qed.

(** The loop deletes, among the directories it is given, those that
    [skip_it] selects, and starts no program. *)
Lemma remove_loop_spec (dirs : list str) (s : State) :
  NoDup (map fst (modules_dir (world s))) ->
  modules_dir (world (remove_loop dirs s)) =
    List.filter
      (fun e => negb (bool_decide (fst e ∈ dirs) &&
                      skip_it (own_entries (snd e))))
      (modules_dir (world s)) /\
  modules_json (world (remove_loop dirs s)) = modules_json (world s) /\
  calls (remove_loop dirs s) = calls s.
Proof.
  revert s. induction dirs as [|d rest IH]; intros s Hnodup.
  - cbn [remove_loop]. split; [|done].
    rewrite <- (filter_ext_in (fun _ => true)).
    + clear Hnodup.
      induction (modules_dir (world s)) as [|e l IHl]; cbn; [done|].
      by rewrite <- IHl.
    + intros e _. rewrite bool_decide_eq_false_2; [done|].
      apply not_elem_of_nil.
  - cbn [remove_loop].
    assert (forall e, In e (modules_dir (world s)) -> fst e = d ->
              skip_it (own_entries (snd e)) =
              skip_it (children d (modules_dir (world s)))) as Hd.
    { intros [n nd] Hin Hn. cbn in Hn. subst n. cbn [snd].
      by rewrite (children_unique _ d nd Hnodup) by by apply list_elem_of_In. }
    destruct (skip_it (children d (modules_dir (world s)))) eqn:Hskip.
    + match goal with
      | |- context [remove_loop rest ?s'] =>
          destruct (IH s') as (Hmods & Hjson & Hcalls);
            [by apply filter_names_nodup|]
      end.
      rewrite Hmods, Hjson, Hcalls.
      cbn [world modules_dir modules_json calls].
      split; [|done]. unfold rmtree. rewrite filter_filter.
      apply filter_ext_in. intros e Hin. unfold str_eqb.
      destruct (decide (fst e = d)) as [Heq|Hne].
      * rewrite (bool_decide_eq_true_2 (fst e = d)) by done.
        rewrite andb_false_r, (Hd e Hin Heq).
        rewrite (bool_decide_eq_true_2 (fst e ∈ d :: rest)); [done|].
        rewrite Heq. by left.
      * rewrite (bool_decide_eq_false_2 (fst e = d)) by done.
        rewrite andb_true_r. f_equal. f_equal.
        apply bool_decide_ext. rewrite elem_of_cons.
        split; [by right | by intros [?|?]].
    + edestruct (IH s Hnodup) as (Hmods & Hjson & Hcalls).
      rewrite Hmods, Hjson, Hcalls. split; [|done].
      apply filter_ext_in. intros e Hin.
      destruct (decide (fst e = d)) as [Heq|Hne].
      * rewrite (Hd e Hin Heq). by rewrite !andb_false_r.
      * f_equal. f_equal. apply bool_decide_ext. rewrite elem_of_cons.
        split; [by right | by intros [?|?]].
Qed.

(** The directories the loop is given are the entries of [modules/] that
    are directories with a name that does not start with a dot. *)
Lemma candidate_dirs (l : list (str * node)) (e : str * node) :
  NoDup (map fst l) -> e ∈ l ->
  bool_decide (fst e ∈ sorted (map fst (glob_dirs not_hidden l))) =
  glob_match not_hidden (fst e) && is_dir (snd e).
Proof.
  intros Hnodup Hin.
  assert (fst e ∈ sorted (map fst (glob_dirs not_hidden l)) <->
          glob_match not_hidden (fst e) = true /\ is_dir (snd e) = true)
    as Hiff; [|destruct (glob_match not_hidden (fst e)), (is_dir (snd e)); cbn;
               (by apply bool_decide_eq_true_2, Hiff) ||
               (apply bool_decide_eq_false_2; intros H;
                by apply Hiff in H as [? ?])].
  rewrite sorted_perm, list_elem_of_fmap. split.
  - intros (e' & Hfst & Hin').
    unfold glob_dirs, glob in Hin'.
    apply list_elem_of_In, filter_In in Hin' as [Hin' Hdir].
    apply filter_In in Hin' as [Hin' Hmatch].
    assert (e' = e) as ->; [|done].
    destruct e as [n nd], e' as [n' nd']. cbn in Hfst. subst n'.
    f_equal. apply list_elem_of_In in Hin'. by eapply entry_unique.
  - intros [Hmatch Hdir]. exists e. split; [done|].
    unfold glob_dirs, glob. apply list_elem_of_In, filter_In.
    split; [|done]. apply filter_In. split; [by apply list_elem_of_In | done].
Qed.

(** [Git.remove] deletes exactly the doomed entries, keeps the others in
    place, leaves the manifest alone, starts no program and never raises. *)
Lemma remove_spec (s : State) :
  NoDup (map fst (modules_dir (world s))) ->
  modules_dir (world (fst (remove s))) =
    List.filter (fun e => negb (doomed e)) (modules_dir (world s)) /\
  modules_json (world (fst (remove s))) = modules_json (world s) /\
  calls (fst (remove s)) = calls s /\
  snd (remove s) = Ok tt.
Proof.
  intros Hnodup. unfold remove. cbn [fst snd].
  destruct (remove_loop_spec
              (sorted (map fst (glob_dirs not_hidden (modules_dir (world s)))))
              s Hnodup) as (-> & -> & ->).
  split; [|done]. apply filter_ext_in. intros e Hin. unfold doomed.
  by rewrite candidate_dirs by (done || by apply list_elem_of_In).
Qed.

Lemma doomed_spec (e : str * node) :
  doomed e = true <->
  not_hidden_name (fst e) /\ is_dir (snd e) = true /\
  oversized (own_entries (snd e)).
Proof.
  unfold doomed.
  rewrite !andb_true_iff, glob_match_not_hidden, skip_it_spec. tauto.
Qed.

Lemma remove_keeps (s : State) (e : str * node) :
  NoDup (map fst (modules_dir (world s))) ->
  e ∈ modules_dir (world (fst (remove s))) <->
  e ∈ modules_dir (world s) /\ doomed e = false.
Proof.
  intros Hnodup. destruct (remove_spec s Hnodup) as (-> & _).
  rewrite !list_elem_of_In, filter_In, negb_true_iff. done.
Qed.

(** ** The maintenance workflow *)

Section Workflow.

Variable subprocess : list str -> World -> World * Z.
Variable float : Type.
Variable float_of_literal : str -> float.
Variable int_truediv : Z -> Z -> result float.
Variable float_truediv : float -> Z -> float.
Variable time : Type.
Variable fromtimestamp_utc : float -> result time.
Variable time_str : time -> str.

Local Abbreviation commit_step :=
  (commit subprocess float float_of_literal int_truediv float_truediv
     time fromtimestamp_utc time_str).
Local Abbreviation workflow :=
  (exec subprocess float float_of_literal int_truediv float_truediv
     time fromtimestamp_utc time_str).
Local Abbreviation truediv :=
  (py_truediv float float_of_literal int_truediv float_truediv).

(** C9. The limit is 50 MiB. Of the module directories, the
    directories of [modules/] whose name does not start with a dot, the
    pruning step removes each one that holds an archive at or above the
    limit and keeps each one that holds none; and the workflow runs the
    upgrade, and everything after it, on the pruned tree. *)
Theorem prune_before_upgrade (s : State) :
  NoDup (map fst (modules_dir (world s))) ->
  let pruned := fst (remove s) in
  GITHUB_MAX_SIZE = 52428800 /\
  (forall n size es,
      (n, Dir size es) ∈ modules_dir (world s) -> not_hidden_name n ->
      (oversized es -> n ∉ map fst (modules_dir (world pruned))) /\
      (~ oversized es -> (n, Dir size es) ∈ modules_dir (world pruned))) /\
  workflow s =
    and_then (upgrade subprocess) (and_then (add subprocess) commit_step)
      pruned /\
  upgrade subprocess pruned =
    run_checked subprocess [py "mrepo"; py "upgrade"; py "--pretty"] pruned.
Proof.
  intros Hnodup. cbn zeta. split; [reflexivity|]. split; [|done].
  intros n size es Hin Hname. split.
  - intros Hbig Hstill.
    apply list_elem_of_fmap in Hstill as ([n' nd'] & Hn & Hstill).
    cbn in Hn. subst n'.
    apply (remove_keeps s _ Hnodup) in Hstill as [Hin' Hkept].
    rewrite (entry_unique _ _ _ _ Hnodup Hin Hin') in Hkept.
    assert (doomed (n, Dir size es) = true) as Hdoomed
      by by apply doomed_spec.
    by rewrite Hdoomed in Hkept.
  - intros Hsmall. apply (remove_keeps s _ Hnodup). split; [done|].
    destruct (doomed (n, Dir size es)) eqn:Hdoomed; [|done].
    apply doomed_spec in Hdoomed as (_ & _ & Hbig). by destruct Hsmall.
Qed.

(** C10. The pruning step keeps every entry of [modules/] whose name
    starts with a dot, whatever it holds; every entry that is not a
    directory; and every directory in which each entry named [*.zip]
    directly inside it is below the limit, whatever the sizes of its
    other files and whatever its subdirectories hold. *)
Theorem prune_spares (s : State) (n : str) (nd : node) :
  NoDup (map fst (modules_dir (world s))) ->
  (n, nd) ∈ modules_dir (world s) ->
  (exists rest, n = 46%N :: rest) \/
  is_dir nd = false \/
  (forall zn znd, (zn, znd) ∈ own_entries nd -> zip_name zn ->
                  st_size znd < GITHUB_MAX_SIZE) ->
  (n, nd) ∈ modules_dir (world (fst (remove s))).
Proof.
  intros Hnodup Hin Hwhy. apply (remove_keeps s _ Hnodup). split; [done|].
  destruct (doomed (n, nd)) eqn:Hdoomed; [|done].
  apply doomed_spec in Hdoomed as (Hname & Hdir & Hbig). cbn in *.
  destruct Hwhy as [[rest ->]|[Hfile|Hsmall]].
  - by destruct Hname as (c & rest' & [= <- <-] & Hc).
  - by rewrite Hfile in Hdir.
  - destruct Hbig as (zn & znd & Hzin & Hzip & Hsize).
    specialize (Hsmall zn znd Hzin Hzip). lia.
Qed.

(** C8, as the commit step behaves. The step ends with an error before
    any program is started when the manifest is missing, does not decode
    as text, is no JSON, decodes to something that is no object, is an
    object without [timestamp], or has a [timestamp] that is neither an
    [int], a [float] nor a [bool], and also when the division by 1000 or
    the conversion to a UTC time rejects the value. Otherwise, the
    [timestamp] being an [int], a [float] or a [bool], which counts as 0
    or 1, the step runs [git commit] with the message made of the time
    that the value divided by 1000 converts to. *)
Theorem commit_needs_timestamp (s : State) :
  (modules_json (world s) = NoManifest ->
     commit_step s = (s, Raise FileNotFoundError)) /\
  (modules_json (world s) = NotText ->
     commit_step s = (s, Raise UnicodeDecodeError)) /\
  (modules_json (world s) = Unparseable ->
     commit_step s = (s, Raise JSONDecodeError)) /\
  (forall modules, modules_json (world s) = Parsed modules ->
     (forall d, modules <> PDict d) ->
     commit_step s = (s, Raise TypeError)) /\
  (forall d, modules_json (world s) = Parsed (PDict d) ->
     (d !! py "timestamp" = None -> commit_step s = (s, Raise KeyError)) /\
     (forall v, d !! py "timestamp" = Some v ->
        (is_number v = false -> commit_step s = (s, Raise TypeError)) /\
        (forall e, truediv v 1000 = Raise e -> commit_step s = (s, Raise e)) /\
        (forall f, truediv v 1000 = Ok f ->
           (forall e, fromtimestamp_utc f = Raise e ->
              commit_step s = (s, Raise e)) /\
           (forall t, fromtimestamp_utc f = Ok t ->
              let msg := py "Update by CLI (" ++ time_str t ++ py ")" in
              commit_step s = run_checked subprocess (commit_args msg) s /\
              calls (fst (commit_step s)) = calls s ++ [commit_args msg]))) /\
     (forall v, d !! py "timestamp" = Some v ->
        (is_number v = true <->
           (exists z, v = PInt z) \/ (exists literal, v = PFloat literal) \/
           (exists b, v = PBool b)) /\
        (forall z, v = PInt z -> truediv v 1000 = int_truediv z 1000) /\
        (forall literal, v = PFloat literal ->
           truediv v 1000 = Ok (float_truediv (float_of_literal literal) 1000)) /\
        (forall b, v = PBool b ->
           truediv v 1000 = int_truediv (if b then 1 else 0) 1000))).
Proof.
  unfold commit, commit_message. split; [|split; [|split; [|split]]].
  - by intros ->.
  - by intros ->.
  - by intros ->.
  - intros modules -> Hno. destruct modules; try reflexivity. by destruct (Hno d).
  - intros d ->. cbn [load_manifest bind py_getitem]. split; [by intros ->|].
    split.
    + intros v ->. cbn [bind]. split; [|split].
      * intros Hv. by destruct v.
      * by intros e ->.
      * intros f ->. cbn [bind]. split; [by intros e ->|].
        intros t ->. cbn [bind]. split; [done|].
        unfold run_checked, commit_args.
        destruct (subprocess _ (world s)) as [w rc].
        by destruct (Z.eqb rc 0).
    + intros v _. split; [|split; [|split]].
      * split.
        -- destruct v; try discriminate; intros _;
             [right; right | left | right; left]; by eexists.
        -- by intros [[z ->]|[[l ->]|[b ->]]].
      * by intros z ->.
      * by intros l ->.
      * intros b ->. by destruct b.
Qed.

End Workflow.

(** ** The workflow on the sample tree *)

Lemma sample_modules_nodup : NoDup (map fst sample_modules).
Proof. apply (bool_decide_unpack _). by vm_compute. Defined.

(** The oversized module goes, and nothing else: not the module just
    below the limit, not the hidden directory, not the module whose large
    files are no direct archives, not the stray file. *)
Example sample_pruned :
  let pruned := fst (remove (sample_state Unparseable)) in
  map fst (modules_dir (world pruned)) =
    [py "busybox"; py ".git"; py "fonts"; py "README.zip"] /\
  stdout pruned = [py "remove: zygisk"] /\
  calls pruned = [].
Proof. by vm_compute. Qed.

Lemma prune_before_upgrade_witness :
  let pruned := fst (remove (sample_state Unparseable)) in
  (py "zygisk" ∉ map fst (modules_dir (world pruned))) /\
  (py "busybox", Dir 4096 [(py "v1.zip", File (50 * MiB - 1));
                            (py "track.json", File 512)])
    ∈ modules_dir (world pruned).
Proof.
  destruct (prune_before_upgrade quiet_subprocess (pyval * Z)%type
              (fun literal => (PFloat literal, 1))
              (fun z d => Ok (PInt z, d))
              (fun f d => (fst f, snd f * d))
              (pyval * Z)%type Ok quotient_str
              (sample_state Unparseable) sample_modules_nodup)
    as (_ & Hmodules & _).
  split.
  - apply (Hmodules (py "zygisk") 4096
             [(py "v1.zip", File (3 * MiB)); (py "v2.zip", File (50 * MiB))]).
    + apply list_elem_of_In. cbn. auto.
    + by apply glob_match_not_hidden.
    + by apply skip_it_spec.
  - apply Hmodules.
    + apply list_elem_of_In. cbn. auto.
    + by apply glob_match_not_hidden.
    + intros Hbig. by apply skip_it_spec in Hbig.
Defined.

Lemma prune_spares_witness :
  (py ".git", Dir 4096 [(py "pack.zip", File (80 * MiB))])
    ∈ modules_dir (world (fst (remove (sample_state Unparseable)))).
Proof.
  apply prune_spares.
  - exact sample_modules_nodup.
  - apply list_elem_of_In. cbn. auto.
  - left. by eexists.
Defined.

(** C8, where the claim fails: the manifest parses and has a [timestamp]
    key, its value is null, and the step raises without starting [git]. *)
Lemma commit_null_timestamp_aborts :
  let s := sample_state (manifest_with PNone) in
  sample_commit s = (s, Raise TypeError) /\
  calls (fst (sample_commit s)) = [].
Proof. split; reflexivity. Qed.

Lemma commit_needs_timestamp_witness :
  let s := sample_state (manifest_with (PInt 1700000000000)) in
  sample_commit s
  = run_checked quiet_subprocess
      (commit_args (py "Update by CLI (utc(1700000000000/1000))")) s /\
  sample_commit (sample_state Unparseable)
  = (sample_state Unparseable, Raise JSONDecodeError) /\
  sample_commit (sample_state (Parsed (PList [])))
  = (sample_state (Parsed (PList [])), Raise TypeError) /\
  calls (fst (sample_commit (sample_state (manifest_with (PBool true)))))
  = [commit_args (py "Update by CLI (utc(1/1000))")].
Proof.
  pose (claim := commit_needs_timestamp quiet_subprocess (pyval * Z)%type
         (fun literal => (PFloat literal, 1))
         (fun z d => Ok (PInt z, d))
         (fun f d => (fst f, snd f * d))
         (pyval * Z)%type Ok quotient_str).
  split; [|split; [|split]].
  - refine (proj1 (proj2 (proj2 (proj2 (proj1 (proj2
      (proj2 (proj2 (proj2 (proj2
         (claim (sample_state (manifest_with (PInt 1700000000000)))))))
       (list_to_map [(py "name", PStr (py "repo"));
                     (py "timestamp", PInt 1700000000000)]) eq_refl))
      (PInt 1700000000000) eq_refl))
      (PInt 1700000000000, 1000) eq_refl)
      (PInt 1700000000000, 1000) eq_refl)).
  - exact (proj1 (proj2 (proj2 (claim (sample_state Unparseable)))) eq_refl).
  - refine (proj1 (proj2 (proj2 (proj2
              (claim (sample_state (Parsed (PList []))))))) (PList []) eq_refl _).
    intros d. discriminate.
  - refine (proj2 (proj2 (proj2 (proj2 (proj1 (proj2
      (proj2 (proj2 (proj2 (proj2
         (claim (sample_state (manifest_with (PBool true)))))))
       (list_to_map [(py "name", PStr (py "repo"));
                     (py "timestamp", PBool true)]) eq_refl))
      (PBool true) eq_refl))
      (PInt 1, 1000) eq_refl)
      (PInt 1, 1000) eq_refl)).
Defined.

(** The whole workflow on the sample tree: three programs, in order, the
    last with the message of the manifest. *)
Example sample_workflow :
  let s := sample_state (manifest_with (PInt 1700000000000)) in
  snd (sample_exec s) = Ok tt /\
  calls (fst (sample_exec s)) =
    [[py "mrepo"; py "upgrade"; py "--pretty"];
     [py "git"; py "add"; py "--all"];
     [py "git"; py "commit"; py "-m";
      py "Update by CLI (utc(1700000000000/1000))"]].
Proof. by vm_compute. Qed.

(** * Further properties *)

(** ** The descriptor format *)

Lemma splitlines_line (line rest : str) :
  no_linebreak line ->
  splitlines (line ++ 10%N :: rest) = line :: splitlines rest.
Proof.
  induction 1 as [|c line Hc _ IH]; [reflexivity|].
  change ((c :: line) ++ 10%N :: rest) with (c :: (line ++ 10%N :: rest)).
  cbn [splitlines]. by rewrite Hc, IH.
Qed.

(** Text written line by line reads back as the same lines. *)
Lemma splitlines_unlines (lines : list str) :
  Forall no_linebreak lines -> splitlines (unlines lines) = lines.
Proof.
  induction 1 as [|line lines Hline _ IH]; [reflexivity|].
  unfold unlines. cbn [map concat]. rewrite <- app_assoc.
  change ([10%N] ++ ?t) with (10%N :: t).
  rewrite splitlines_line by done. by rewrite <- IH at 2.
Qed.

Lemma foldl_line_step_pairs (pairs : list (str * str)) (m : gmap str str) :
  Forall (fun kv => eq_sign ∉ fst kv) pairs ->
  foldl line_step m (map prop_line pairs) =
  foldl (fun m kv => <[fst kv := snd kv]> m) m pairs.
Proof.
  intros Hall. revert m.
  induction Hall as [|kv pairs Hk _ IH]; intros m; [reflexivity|].
  cbn [map foldl]. unfold prop_line at 1. by rewrite line_step_pair, IH.
Qed.

Lemma foldl_insert_list_to_map (pairs : list (str * str)) :
  foldl (fun m kv => <[fst kv := snd kv]> m) (∅ : gmap str str) pairs =
  list_to_map (reverse pairs).
Proof.
  induction pairs as [|kv pairs IH] using rev_ind; [reflexivity|].
  rewrite foldl_app, reverse_app, IH. by destruct kv.
Qed.

(** X1. Writing pairs as [key=value] lines and parsing the text gives the
    pairs back as a mapping, a later pair replacing an earlier one with
    the same key; this needs keys without [=] and without line
    terminator, and values without line terminator, and nothing else:
    values may hold [=] and both may hold blanks. *)
Theorem descriptor_round_trip (pairs : list (str * str)) :
  Forall (fun kv => plain_key (fst kv) /\ no_linebreak (snd kv)) pairs ->
  parse_module_prop (unlines (map prop_line pairs)) =
    Ok (list_to_map (reverse pairs)) /\
  (NoDup (map fst pairs) ->
   forall k v, (k, v) ∈ pairs ->
     exists m, parse_module_prop (unlines (map prop_line pairs)) = Ok m /\
               m !! k = Some v).
Proof.
  intros Hall.
  assert (parse_module_prop (unlines (map prop_line pairs)) =
          Ok (list_to_map (reverse pairs))) as Hparse.
  { unfold parse_module_prop. rewrite splitlines_unlines.
    - rewrite prop_lines_fold, foldl_line_step_pairs, foldl_insert_list_to_map;
        [done|].
      eapply Forall_impl; [exact Hall|]. by intros kv [[Hk _] _].
    - apply Forall_fmap. eapply Forall_impl; [exact Hall|].
      intros [k v] [[_ Hk] Hv]. unfold prop_line, no_linebreak. cbn.
      apply Forall_app. split; [done|]. by constructor. }
  split; [done|].
  intros Hnodup k v Hin. eexists. split; [exact Hparse|].
  apply elem_of_list_to_map_1.
  - by rewrite fmap_reverse, reverse_Permutation.
  - by apply elem_of_reverse.
Qed.

Lemma descriptor_round_trip_witness :
  exists m,
    parse_module_prop
      (unlines (map prop_line [(py "id", py "foo"); (py "name ", py " a=b")]))
    = Ok m /\
    m !! py "name " = Some (py " a=b").
Proof.
  refine (proj2 (descriptor_round_trip
                   [(py "id", py "foo"); (py "name ", py " a=b")] _) _ _ _ _).
  - unfold plain_key, no_linebreak. apply (bool_decide_unpack _).
    by vm_compute.
  - apply (bool_decide_unpack _). by vm_compute.
  - apply list_elem_of_In. cbn. auto.
Defined.

(** Every line holds characters of the text only. *)
Lemma splitlines_Forall (P : N -> Prop) (s : str) :
  Forall P s -> Forall (Forall P) (splitlines s).
Proof.
  assert (forall n (s : str), (length s <= n)%nat -> Forall P s ->
            Forall (Forall P) (splitlines s))
    as Hn; [|by apply (Hn (length s))].
  intros n. induction n as [|n IH]; intros [|c rest] Hlen Hall; simpl in *;
    try constructor; try lia.
  apply Forall_cons in Hall as [Hc Hrest].
  destruct (is_linebreak c).
  - constructor; [constructor|].
    destruct (N.eqb c 13); [|apply IH; [lia | done]].
    destruct rest as [|c' rest']; [constructor|].
    destruct (N.eqb c' 10); apply IH; simpl in *; try lia; try done.
    by apply Forall_cons in Hrest as [_ Hrest].
  - assert (Forall (Forall P) (splitlines rest)) as Hlines
      by (apply IH; [lia | done]).
    destruct (splitlines rest) as [|l ls].
    + constructor; [|constructor]. by constructor.
    + apply Forall_cons in Hlines as [Hl Hls].
      constructor; [by constructor | done].
Qed.

(** X2. Every entry of the parsed mapping comes from a line of the text:
    the key holds no [=] and no line terminator, the value holds no line
    terminator, and key, [=] and value together are one of the lines. *)
Theorem descriptor_entries_are_lines (prop : str) (m : gmap str str)
    (k v : str) :
  parse_module_prop prop = Ok m ->
  m !! k = Some v ->
  plain_key k /\ no_linebreak v /\ prop_line (k, v) ∈ splitlines prop.
Proof.
  unfold parse_module_prop. rewrite prop_lines_fold. intros [= <-] Hlook.
  assert (eq_sign ∉ k) as Hk.
  { apply (foldl_line_step_keys (splitlines prop) ∅ k).
    - intros k' [x Hx]. by rewrite lookup_empty in Hx.
    - by exists v. }
  apply (foldl_line_step_lookup _ _ _ _ Hk) in Hlook
    as [(before & after & Heq & _)|[_ Hempty]];
    [|by rewrite lookup_empty in Hempty].
  assert (prop_line (k, v) ∈ splitlines prop) as Hin.
  { rewrite Heq. apply elem_of_app. right. by left. }
  pose proof (splitlines_no_linebreak prop) as Hlines.
  rewrite Forall_forall in Hlines.
  specialize (Hlines _ Hin). unfold prop_line in Hlines. cbn in Hlines.
  apply Forall_app in Hlines as [Hkl Hvl].
  apply Forall_cons in Hvl as [_ Hvl]. by repeat split.
Qed.

Lemma descriptor_entries_are_lines_witness :
  plain_key (py "id") /\ no_linebreak (py "bar") /\
  prop_line (py "id", py "bar")
    ∈ splitlines (py "id=foo" ++ [13%N; 10%N] ++ py "id=bar").
Proof.
  eapply (descriptor_entries_are_lines
            (py "id=foo" ++ [13%N; 10%N] ++ py "id=bar")); reflexivity.
Defined.

(** X3. A descriptor file without any [=] still is a descriptor: the
    parser returns a mapping, and the mapping is empty. *)
Theorem descriptor_without_separator (repo : Repository) (f : ContentFile)
    (prop : str) :
  repo_get_contents repo (py "module.prop") = Ok (AFile f) ->
  decoded_text f = Some prop ->
  eq_sign ∉ prop ->
  parse_module_prop prop = Ok ∅ /\
  get_module_prop repo = Ok (Some ∅).
Proof.
  intros Hfile Htext Hno.
  assert (parse_module_prop prop = Ok ∅) as Hparse.
  { unfold parse_module_prop. rewrite prop_lines_fold. f_equal.
    assert (Forall (fun line => eq_sign ∉ line) (splitlines prop)) as Hlines.
    { pose proof (splitlines_Forall (fun c => c <> eq_sign) prop) as H.
      eapply Forall_impl; [apply H|].
      - apply Forall_forall. by intros c Hc ->.
      - intros line Hline Hin. rewrite Forall_forall in Hline.
        by apply (Hline _ Hin). }
    induction Hlines as [|line lines Hline _ IH]; [done|].
    cbn [foldl]. by rewrite line_step_absent. }
  split; [done|].
  unfold get_module_prop. rewrite Hfile. cbn [bind as_file].
  unfold decode_utf8. rewrite Htext. cbn [bind]. by rewrite Hparse.
Qed.

Lemma descriptor_without_separator_witness :
  get_module_prop
    (sample_repo (py "empty") [(py "module.prop", text_file (py "just text") [])])
  = Ok (Some ∅).
Proof.
  refine (proj2 (descriptor_without_separator
                   (sample_repo (py "empty")
                      [(py "module.prop", text_file (py "just text") [])])
                   {| decoded_text := Some (py "just text"); download_url := [] |}
                   (py "just text") eq_refl eq_refl _)).
  apply (bool_decide_unpack _). by vm_compute.
Defined.

(** X4. The descriptor lookup tells one failure apart: a 404 means "not a
    module". A directory at the path raises [AttributeError], bytes that
    are not UTF-8 raise [UnicodeDecodeError], any other exception of the
    lookup reaches the caller, and a file that decodes always gives a
    mapping. *)
Theorem get_module_prop_outcomes (repo : Repository) :
  (repo_get_contents repo (py "module.prop") = Raise UnknownObjectException ->
     get_module_prop repo = Ok None) /\
  (forall e, repo_get_contents repo (py "module.prop") = Raise e ->
     e <> UnknownObjectException -> get_module_prop repo = Raise e) /\
  (forall l, repo_get_contents repo (py "module.prop") = Ok (AListing l) ->
     get_module_prop repo = Raise AttributeError) /\
  (forall f, repo_get_contents repo (py "module.prop") = Ok (AFile f) ->
     (decoded_text f = None ->
        get_module_prop repo = Raise UnicodeDecodeError) /\
     (forall prop, decoded_text f = Some prop ->
        exists m, get_module_prop repo = Ok (Some m) /\
                  parse_module_prop prop = Ok m)).
Proof.
  unfold get_module_prop. split; [|split; [|split]].
  - by intros ->.
  - intros e -> He. by destruct e.
  - by intros l ->.
  - intros f ->. cbn [bind as_file]. unfold decode_utf8. split.
    + by intros ->.
    + intros prop ->. cbn [bind]. unfold parse_module_prop.
      rewrite prop_lines_fold. by eexists.
Qed.

Lemma get_module_prop_outcomes_witness :
  get_module_prop repo_plain = Ok None /\
  get_module_prop repo_broken = Raise GithubException.
Proof.
  split.
  - exact (proj1 (get_module_prop_outcomes repo_plain) eq_refl).
  - refine (proj1 (proj2 (get_module_prop_outcomes repo_broken)) _ eq_refl _).
    discriminate.
Defined.

(** ** License, homepage and the fields of a record *)

Lemma get_license_cases (repo : Repository) :
  match repo_get_license repo with
  | Ok l =>
      get_license repo = Ok (if str_eqb l (py "NOASSERTION") then [] else l)
  | Raise UnknownObjectException => get_license repo = Ok []
  | Raise e => get_license repo = Raise e
  end.
Proof.
  unfold get_license. destruct (repo_get_license repo) as [l|e]; cbn [bind].
  - by destruct (str_eqb l (py "NOASSERTION")).
  - by destruct e.
Qed.

Lemma get_license_not_sentinel (repo : Repository) (l : str) :
  get_license repo = Ok l -> l <> py "NOASSERTION".
Proof.
  pose proof (get_license_cases repo) as Hcases.
  destruct (repo_get_license repo) as [l0|e].
  - rewrite Hcases. unfold str_eqb. case_bool_decide as Heq.
    + intros [= <-]. by vm_compute.
    + by intros [= <-].
  - destruct e; rewrite Hcases; try discriminate. intros [= <-]. by vm_compute.
Qed.

(** X5. The license identifier that the resolver reports is never the
    sentinel [NOASSERTION]: the sentinel and a 404 both give the empty
    string, any other identifier is passed on, and any other exception of
    the lookup reaches the caller. *)
Theorem license_normalised (repo : Repository) :
  (forall l, get_license repo = Ok l -> l <> py "NOASSERTION") /\
  (repo_get_license repo = Ok (py "NOASSERTION") -> get_license repo = Ok []) /\
  (repo_get_license repo = Raise UnknownObjectException ->
     get_license repo = Ok []) /\
  (forall l, repo_get_license repo = Ok l -> l <> py "NOASSERTION" ->
     get_license repo = Ok l) /\
  (forall e, repo_get_license repo = Raise e -> e <> UnknownObjectException ->
     get_license repo = Raise e).
Proof.
  pose proof (get_license_cases repo) as Hcases.
  split; [apply get_license_not_sentinel|].
  split; [intros H; by rewrite H in Hcases|].
  split; [intros H; by rewrite H in Hcases|].
  split.
  - intros l H Hl. rewrite H in Hcases. rewrite Hcases. unfold str_eqb.
    by rewrite bool_decide_eq_false_2.
  - intros e H He. rewrite H in Hcases. by destruct e.
Qed.

Section Fields.

Variable requests_post : str -> str -> result Response.

(** X6. In every record that the resolver returns, the homepage is never
    [None], the license is never [NOASSERTION], the kind is one of [git]
    and [update-json], an [update-json] provider is not empty, the source
    is the clone URL, and the support URL is the repository URL followed by
    [/issues] when the repository has issues and empty otherwise. *)
Theorem record_fields (token : str) (repo : Repository) (r : Module) :
  generate_module requests_post token repo = Ok (Some r) ->
  meta_homepage (mod_metadata r) <> PNone /\
  meta_license (mod_metadata r) <> py "NOASSERTION" /\
  (mod_kind r = py "git" \/ mod_kind r = py "update-json") /\
  (mod_kind r = py "update-json" -> mod_provider r <> []) /\
  meta_source (mod_metadata r) = clone_url repo /\
  meta_support (mod_metadata r) =
    (if has_issues repo then html_url repo ++ py "/issues" else []).
Proof.
  intros Hgen.
  apply generate_module_inv in Hgen
    as (mp & urls & hp & _ & Hkind & _ & _ & _ & Hhome & _ & Hlic & Hsrc & Hsup).
  split; [rewrite Hhome; by destruct hp|].
  split; [by apply (get_license_not_sentinel repo)|].
  destruct (truthy (mp !! py "updateJson")) eqn:Htruthy.
  - destruct Hkind as (Hprov & _ & Hk).
    split; [by right|]. split; [|done].
    intros _ Hempty. rewrite Hempty in Hprov. by rewrite Hprov in Htruthy.
  - destruct Hkind as (_ & _ & Hk).
    split; [by left|]. split; [|done].
    rewrite Hk. intros Hne. by vm_compute in Hne.
Qed.

(** X7. The homepage lookup returns "no value" for a response that is
    not OK, for a body without repository, and for a homepage that is
    null or the empty string; any other value is passed on, and a
    repository object without the field raises [KeyError]. *)
Theorem homepage_lookup (token owner name : str) (resp : Response) :
  requests_post (py "bearer " ++ token)
    (repository_query owner name (py "homepageUrl")) = Ok resp ->
  let homepage := get_homepage_url requests_post token owner name in
  (ok resp = false -> homepage = Ok PNone) /\
  (forall body, ok resp = true -> json resp = Ok body ->
     (repository_of body = PNone -> homepage = Ok PNone) /\
     (forall rd, repository_of body = PDict rd ->
        (rd !! py "homepageUrl" = None -> homepage = Raise KeyError) /\
        (rd !! py "homepageUrl" = Some (PStr []) -> homepage = Ok PNone) /\
        (forall v, rd !! py "homepageUrl" = Some v -> v <> PStr [] ->
           homepage = Ok v))).
Proof.
  intros Hpost. cbn zeta. unfold get_homepage_url. split.
  - intros Hok. by rewrite (query_repository_not_ok _ _ _ _ _ _ Hpost Hok).
  - intros body Hok Hjson.
    rewrite (query_repository_decoded _ _ _ _ _ _ _ Hpost Hok Hjson).
    cbn [bind]. split; [by intros ->|].
    intros rd ->. cbn [is_none py_getitem]. split; [by intros ->|].
    split; [by intros ->|].
    intros v -> Hv. cbn [bind].
    destruct (py_eq_str v []) eqn:Heq; [|done].
    unfold py_eq_str, str_eqb in Heq. destruct v; try discriminate.
    apply bool_decide_eq_true in Heq. by subst.
Qed.

(** X8. The repository query raises only what the HTTP call or the
    decoding of the body raised: no lookup inside the decoded body makes
    it raise. *)
Theorem query_repository_raises (token owner name query : str) (e : exn) :
  query_repository requests_post token owner name query = Raise e ->
  requests_post (py "bearer " ++ token) (repository_query owner name query)
    = Raise e \/
  exists resp,
    requests_post (py "bearer " ++ token) (repository_query owner name query)
      = Ok resp /\
    ok resp = true /\ json resp = Raise e.
Proof.
  destruct (requests_post (py "bearer " ++ token)
              (repository_query owner name query)) as [resp|e'] eqn:Hpost.
  - destruct (ok resp) eqn:Hok.
    + destruct (json resp) as [body|e'] eqn:Hjson.
      * by rewrite (query_repository_decoded _ _ _ _ _ _ _ Hpost Hok Hjson).
      * rewrite (query_repository_undecodable _ _ _ _ _ _ _ Hpost Hok Hjson).
        intros [= ->]. right. by exists resp.
    + by rewrite (query_repository_not_ok _ _ _ _ _ _ Hpost Hok).
  - rewrite (query_repository_transport _ _ _ _ _ _ Hpost).
    intros [= ->]. by left.
Qed.

End Fields.

Lemma record_fields_witness :
  exists r,
    generate_module unauthorized sample_token repo_update_json = Ok (Some r) /\
    meta_homepage (mod_metadata r) <> PNone /\
    mod_provider r <> [].
Proof.
  eexists. split; [reflexivity|].
  destruct (record_fields unauthorized sample_token repo_update_json _ eq_refl)
    as (Hhome & _ & _ & Hprov & _).
  split; [exact Hhome | by apply Hprov].
Defined.

Lemma homepage_lookup_witness :
  get_homepage_url (post_answering true (Ok sample_funding_body)) sample_token
    (py "octo") (py "foo") = Ok PNone.
Proof.
  refine (proj2 (proj2 (proj2 (proj2 (homepage_lookup
            (post_answering true (Ok sample_funding_body)) sample_token
            (py "octo") (py "foo") _ eq_refl)
            sample_funding_body eq_refl eq_refl)
            (list_to_map
               [(py "fundingLinks", PList (map funding_item sample_funding));
                (py "homepageUrl", PNone)]) eq_refl))
          PNone eq_refl _).
  discriminate.
Defined.

Lemma query_repository_raises_witness :
  post_raising RequestException (py "bearer " ++ sample_token)
    (repository_query (py "octo") (py "foo") funding_query)
    = Raise RequestException \/
  exists resp,
    post_raising RequestException (py "bearer " ++ sample_token)
      (repository_query (py "octo") (py "foo") funding_query) = Ok resp /\
    ok resp = true /\ json resp = Raise RequestException.
Proof.
  exact (query_repository_raises (post_raising RequestException) sample_token
           (py "octo") (py "foo") funding_query RequestException eq_refl).
Defined.

(** ** The funding loop on any entries *)

Lemma sponsor_links_step (item : pyval) (rest links result : list pyval) :
  sponsor_links (item :: rest) links = Ok result <->
  exists url, link_of item url /\ sponsor_links rest (links ++ [url]) = Ok result.
Proof.
  cbn [sponsor_links]. split.
  - intros Hloop. apply bind_ok in Hloop as (platform & Hp & Hloop).
    destruct item as [| | | | | |d]; try discriminate. cbn in Hp.
    destruct (d !! py "platform") as [p|] eqn:Hd; [|discriminate].
    injection Hp as ->.
    destruct (py_eq_str platform (py "GITHUB")) eqn:Hg.
    + apply py_eq_str_spec in Hg.
      apply bind_ok in Hloop as (url & Hu & Hloop).
      apply bind_ok in Hloop as (seg & Hseg & Hloop).
      cbn in Hu. destruct (d !! py "url") as [u0|] eqn:Hdu; [|discriminate].
      injection Hu as ->. destruct url as [| | | |u| |]; try discriminate.
      injection Hseg as <-.
      eexists. split; [|exact Hloop].
      exists d, platform. split; [done|]. split; [done|]. left.
      split; [done|]. by exists u.
    + apply bind_ok in Hloop as (url & Hu & Hloop).
      cbn in Hu. destruct (d !! py "url") as [u0|] eqn:Hdu; [|discriminate].
      injection Hu as ->.
      exists url. split; [|exact Hloop].
      exists d, platform. split; [done|]. split; [done|]. right.
      split; [|done]. intros Heq. apply py_eq_str_spec in Heq.
      by rewrite Heq in Hg.
  - intros (url & (d & platform & -> & Hp & Hcase) & Hloop).
    cbn [py_getitem]. rewrite Hp. cbn [bind].
    destruct Hcase as [[-> (u & Hu & ->)]|[Hne Hu]].
    + rewrite (proj2 (py_eq_str_spec _ _) eq_refl), Hu. exact Hloop.
    + destruct (py_eq_str platform (py "GITHUB")) eqn:Hg.
      * by apply py_eq_str_spec in Hg.
      * by rewrite Hu.
Qed.

Lemma sponsor_links_iff (items links result : list pyval) :
  sponsor_links items links = Ok result <->
  exists urls, Forall2 link_of items urls /\ result = links ++ urls.
Proof.
  revert links. induction items as [|item rest IH]; intros links.
  - cbn. split.
    + intros [= <-]. exists []. split; [constructor | by rewrite app_nil_r].
    + intros (urls & Hall & ->). apply Forall2_nil_inv_l in Hall as ->.
      by rewrite app_nil_r.
  - rewrite sponsor_links_step. split.
    + intros (url & Hlink & Hloop).
      apply IH in Hloop as (urls & Hall & ->).
      exists (url :: urls). split; [by constructor|].
      by rewrite <- app_assoc.
    + intros (urls & Hall & ->).
      apply Forall2_cons_inv_l in Hall as (url & urls' & Hlink & Hall & ->).
      exists url. split; [done|]. apply IH. exists urls'. split; [done|].
      by rewrite <- app_assoc.
Qed.

Section Funding.

Variable requests_post : str -> str -> result Response.

(** X9. For a repository result that holds a list of funding entries the
    client returns exactly when every entry is a dict with a [platform]
    and a [url], the [url] of a [GITHUB] entry being a string; it then
    returns one URL per entry, in order. The [url] of any other entry is
    passed on whatever it is. *)
Theorem funding_links_returns (token owner name : str) (resp : Response)
    (body : pyval) (rd : gmap str pyval) (items urls : list pyval) :
  requests_post (py "bearer " ++ token)
    (repository_query owner name funding_query) = Ok resp ->
  ok resp = true ->
  json resp = Ok body ->
  repository_of body = PDict rd ->
  rd !! py "fundingLinks" = Some (PList items) ->
  (get_sponsor_url requests_post token owner name = Ok urls <->
   Forall2 link_of items urls) /\
  (get_sponsor_url requests_post token owner name = Ok urls ->
   length urls = length items).
Proof.
  intros Hpost Hok Hjson Hrepo Hlinks.
  assert (get_sponsor_url requests_post token owner name = Ok urls <->
          Forall2 link_of items urls) as Hiff.
  { unfold get_sponsor_url. fold funding_query.
    rewrite (query_repository_decoded _ _ _ _ _ _ _ Hpost Hok Hjson), Hrepo.
    cbn [bind is_none py_getitem]. rewrite Hlinks. cbn [bind py_iter].
    rewrite sponsor_links_iff. split.
    - by intros (urls' & Hall & ->).
    - intros Hall. by exists urls. }
  split; [done|].
  intros Hret. apply Hiff in Hret. symmetry. by eapply Forall2_length.
Qed.

(** X10. What a malformed repository result raises: [TypeError] when the
    result is neither null nor an object, [KeyError] when the object has
    no [fundingLinks], [TypeError] when [fundingLinks] is null, a number
    or a boolean, and also when it is an object with at least one key. An
    empty object, like an empty list, gives the empty list. *)
Theorem funding_links_malformed (token owner name : str) (resp : Response)
    (body : pyval) :
  requests_post (py "bearer " ++ token)
    (repository_query owner name funding_query) = Ok resp ->
  ok resp = true ->
  json resp = Ok body ->
  let links := get_sponsor_url requests_post token owner name in
  ((repository_of body <> PNone /\ forall rd, repository_of body <> PDict rd) ->
     links = Raise TypeError) /\
  (forall rd, repository_of body = PDict rd ->
     (rd !! py "fundingLinks" = None -> links = Raise KeyError) /\
     (forall v, rd !! py "fundingLinks" = Some v -> not_iterable v ->
        links = Raise TypeError) /\
     (forall d, rd !! py "fundingLinks" = Some (PDict d) ->
        (d = ∅ -> links = Ok []) /\ (d <> ∅ -> links = Raise TypeError))).
Proof.
  intros Hpost Hok Hjson. cbn zeta. unfold get_sponsor_url.
  fold funding_query.
  rewrite (query_repository_decoded _ _ _ _ _ _ _ Hpost Hok Hjson).
  cbn [bind]. split.
  - intros [Hnone Hdict]. destruct (repository_of body); try done.
    by destruct (Hdict d).
  - intros rd ->. cbn [is_none py_getitem]. split; [by intros ->|]. split.
    + intros v -> Hv. cbn [bind]. by destruct v.
    + intros d ->. cbn [bind py_iter]. split.
      * intros ->. by rewrite map_to_list_empty.
      * intros Hne. destruct (map_to_list d) as [|[k v] l] eqn:Hl.
        -- by apply map_to_list_empty_iff in Hl.
        -- reflexivity.
Qed.

End Funding.

Lemma funding_links_returns_witness :
  length (map sponsor_url sample_funding) =
  length (map funding_item sample_funding).
Proof.
  refine (proj2 (funding_links_returns
                   (post_answering true (Ok sample_funding_body))
                   sample_token (py "octo") (py "foo")
                   {| ok := true; json := Ok sample_funding_body |}
                   sample_funding_body
                   (list_to_map
                      [(py "fundingLinks", PList (map funding_item sample_funding));
                       (py "homepageUrl", PNone)])
                   (map funding_item sample_funding)
                   (map sponsor_url sample_funding)
                   eq_refl eq_refl eq_refl eq_refl eq_refl) eq_refl).
Defined.

Lemma funding_links_malformed_witness :
  get_sponsor_url
    (post_answering true
       (Ok (body_with_repository (dict [(py "fundingLinks", PNone)]))))
    sample_token (py "octo") (py "foo") = Raise TypeError.
Proof.
  refine (proj1 (proj2 (proj2 (funding_links_malformed
            (post_answering true
               (Ok (body_with_repository (dict [(py "fundingLinks", PNone)]))))
            sample_token (py "octo") (py "foo") _ _ eq_refl eq_refl eq_refl)
            (list_to_map [(py "fundingLinks", PNone)]) eq_refl))
          PNone eq_refl I).
Defined.

(** X11. The rewritten sponsorship URL at the edges: a stored URL without
    any [/] is taken whole as the name, and a stored URL that ends in [/]
    gives the bare prefix, with an empty name. *)
Theorem sponsor_url_edges (u : str) :
  (slash ∉ u ->
     sponsor_url (PStr (py "GITHUB"), u) = PStr (sponsors_prefix ++ u)) /\
  sponsor_url (PStr (py "GITHUB"), u ++ [slash]) = PStr sponsors_prefix.
Proof.
  unfold sponsor_url. cbn [fst snd].
  rewrite (proj2 (py_eq_str_spec _ _) eq_refl). split.
  - intros Hno. by rewrite (split_on_absent _ _ Hno).
  - rewrite last_item_split_on_app. cbn. by rewrite app_nil_r.
Qed.

(** ** What the resolver does not look at *)

Section Independence.

Variable requests_post : str -> str -> result Response.

(** X12. For a descriptor with a non-empty [updateJson] the resolver does
    not probe for a changelog: whatever the lookup of [changelog.md] would
    give, a file, a 404 or any exception, the outcome is the same. *)
Theorem update_json_ignores_changelog (token : str) (repo : Repository)
    (module_prop : gmap str str) (c : result contents) :
  get_module_prop repo = Ok (Some module_prop) ->
  truthy (module_prop !! py "updateJson") = true ->
  generate_module requests_post token (with_changelog repo c) =
  generate_module requests_post token repo.
Proof.
  intros Hprop Htruthy.
  assert (get_module_prop (with_changelog repo c) = get_module_prop repo)
    as Hsame by reflexivity.
  unfold generate_module. rewrite Hsame, Hprop. cbn [bind].
  rewrite Htruthy. reflexivity.
Qed.

(** X13. The catalog builder has no recovery: when the listing raises,
    or when the resolver raises on a repository after returning on all
    those before it, the builder raises the same exception and stores no
    modules, whatever the remaining repositories are. *)
Theorem catalog_aborts (get_user_repos : str -> result (list Repository))
    (api : GithubApi) (user_name : str) (e : exn) :
  (get_user_repos user_name = Raise e ->
     generate_modules requests_post get_user_repos api user_name = Raise e) /\
  (forall before repo after,
     get_user_repos user_name = Ok (before ++ repo :: after) ->
     Forall (fun r => exists res,
               generate_module requests_post (api_token api) r = Ok res)
            before ->
     generate_module requests_post (api_token api) repo = Raise e ->
     generate_modules requests_post get_user_repos api user_name = Raise e).
Proof.
  unfold generate_modules. split; [by intros ->|].
  intros before repo after -> Hbefore Hrepo. cbn [bind].
  assert (forall modules,
             collect_modules requests_post (api_token api)
               (before ++ repo :: after) modules = Raise e) as ->; [|done].
  induction Hbefore as [|r before [res Hr] _ IH]; intros modules.
  - cbn [app collect_modules]. by rewrite Hrepo.
  - cbn [app collect_modules]. rewrite Hr. cbn [bind]. by destruct res.
Qed.

End Independence.

Lemma update_json_ignores_changelog_witness :
  generate_module unauthorized sample_token
    (with_changelog repo_update_json (Raise GithubException)) =
  generate_module unauthorized sample_token repo_update_json.
Proof.
  eapply (update_json_ignores_changelog unauthorized); reflexivity.
Defined.

Lemma catalog_aborts_witness :
  generate_modules unauthorized
    (fun _ => Ok [repo_git; repo_without_id; repo_plain])
    (GithubApi_init sample_token) (py "octo") = Raise KeyError.
Proof.
  refine (proj2 (catalog_aborts unauthorized
                   (fun _ => Ok [repo_git; repo_without_id; repo_plain])
                   (GithubApi_init sample_token) (py "octo") KeyError)
            [repo_git] repo_without_id [repo_plain] eq_refl _ eq_refl).
  constructor; [|constructor]. eexists. reflexivity.
Defined.

(** ** More on pruning *)

Lemma skip_it_loop_app (a b : list (str * node)) :
  skip_it_loop (a ++ b) = skip_it_loop a || skip_it_loop b.
Proof.
  induction a as [|file a IH]; cbn; [done|].
  by destruct (Z.geb (st_size file.2) GITHUB_MAX_SIZE).
Qed.

(** X14. Whether a directory is pruned depends on each of its entries
    alone: the entries of two listings taken together select the directory
    exactly when one of the listings does, so adding files never saves a
    directory and the order of the entries does not matter. *)
Theorem skip_it_app (a b : list (str * node)) :
  skip_it (a ++ b) = skip_it a || skip_it b /\
  skip_it (b ++ a) = skip_it (a ++ b).
Proof.
  unfold skip_it, glob.
  rewrite !List.filter_app, !skip_it_loop_app.
  split; [done | apply orb_comm].
Qed.

Lemma filter_sublist (f : str * node -> bool) (l : list (str * node)) :
  sublist (List.filter f l) l.
Proof.
  induction l as [|e l IH]; cbn; [constructor|].
  destruct (f e); by constructor.
Qed.

Lemma remove_loop_untouched (dirs : list str) (s : State) :
  modules_json (world (remove_loop dirs s)) = modules_json (world s) /\
  calls (remove_loop dirs s) = calls s.
Proof.
  revert s. induction dirs as [|d rest IH]; intros s; [done|].
  cbn [remove_loop].
  destruct (skip_it (children d (modules_dir (world s)))); [|apply IH].
  match goal with
  | |- context [remove_loop rest ?s'] => destruct (IH s') as [-> ->]
  end.
  done.
Qed.

(** X15. The pruning step only deletes: what it keeps of [modules/] keeps
    its order and its contents, the manifest is not touched, no program is
    started, and the step never raises. *)
Theorem remove_only_deletes (s : State) :
  NoDup (map fst (modules_dir (world s))) ->
  sublist (modules_dir (world (fst (remove s)))) (modules_dir (world s)) /\
  modules_json (world (fst (remove s))) = modules_json (world s) /\
  calls (fst (remove s)) = calls s /\
  snd (remove s) = Ok tt.
Proof.
  intros Hnodup. destruct (remove_spec s Hnodup) as (-> & -> & -> & ->).
  split; [apply filter_sublist | done].
Qed.

Lemma remove_only_deletes_witness :
  sublist (modules_dir (world (fst (remove (sample_state Unparseable)))))
          sample_modules.
Proof.
  exact (proj1 (remove_only_deletes (sample_state Unparseable)
                  sample_modules_nodup)).
Defined.

(** X16. Pruning twice is pruning once: on the pruned tree the step
    deletes nothing. *)
Theorem remove_idempotent (s : State) :
  NoDup (map fst (modules_dir (world s))) ->
  modules_dir (world (fst (remove (fst (remove s))))) =
  modules_dir (world (fst (remove s))).
Proof.
  intros Hnodup.
  destruct (remove_spec s Hnodup) as (Hmods & _).
  assert (NoDup (map fst (modules_dir (world (fst (remove s)))))) as Hnodup'.
  { rewrite Hmods. by apply filter_names_nodup. }
  destruct (remove_spec _ Hnodup') as (-> & _).
  rewrite Hmods, filter_filter. apply filter_ext_in. intros e _.
  by destruct (doomed e).
Qed.

Lemma remove_idempotent_witness :
  modules_dir (world (fst (remove (fst (remove (sample_state Unparseable)))))) =
  modules_dir (world (fst (remove (sample_state Unparseable)))).
Proof.
  exact (remove_idempotent (sample_state Unparseable) sample_modules_nodup).
Defined.

(** ** What the pruning step prints *)

Lemma str_leb_total (a b : str) : str_leb a b = false -> str_leb b a = true.
Proof.
  revert b. induction a as [|x a IH]; intros [|y b]; cbn; try done.
  destruct (N.ltb_spec x y) as [Hlt|Hge]; [done|].
  destruct (N.eqb_spec x y) as [->|Hne].
  - rewrite N.ltb_irrefl, N.eqb_refl. apply IH.
  - intros _. destruct (N.ltb_spec y x) as [|Hge']; [done | lia].
Qed.

Lemma str_leb_trans (a b c : str) :
  str_leb a b = true -> str_leb b c = true -> str_leb a c = true.
Proof.
  revert b c. induction a as [|x a IH]; intros [|y b] [|z c]; cbn; try done.
  destruct (N.ltb_spec x y) as [Hxy|Hxy].
  - intros _. destruct (N.ltb_spec y z) as [Hyz|Hyz].
    + intros _. destruct (N.ltb_spec x z); [done | lia].
    + destruct (N.eqb_spec y z) as [->|]; [|done].
      intros _. destruct (N.ltb_spec x z); [done | lia].
  - destruct (N.eqb_spec x y) as [->|]; [|done].
    intros Hab. destruct (N.ltb_spec y z) as [Hyz|Hyz]; [done|].
    destruct (N.eqb_spec y z) as [->|]; [|done].
    by apply IH.
Qed.

Lemma insert_sorted_ascending (x : str) (l : list str) :
  ascending l -> ascending (insert_sorted x l).
Proof.
  unfold ascending. induction 1 as [|y l Hl IH Hy]; cbn.
  - constructor; [constructor | constructor].
  - destruct (str_leb x y) eqn:Hxy.
    + constructor; [by constructor|]. constructor; [done|].
      eapply Forall_impl; [exact Hy|]. intros z Hz. by eapply str_leb_trans.
    + constructor; [done|]. rewrite insert_sorted_perm.
      constructor; [by apply str_leb_total | done].
Qed.

Lemma sorted_ascending (l : list str) : ascending (sorted l).
Proof.
  induction l as [|x l IH]; cbn; [constructor|].
  by apply insert_sorted_ascending.
Qed.

Lemma filter_ascending (f : str -> bool) (l : list str) :
  ascending l -> ascending (List.filter f l).
Proof.
  unfold ascending. induction 1 as [|y l Hl IH Hy]; cbn; [constructor|].
  destruct (f y); [|done]. constructor; [done|].
  apply Forall_forall. intros z Hz.
  apply list_elem_of_In, filter_In in Hz as [Hz _].
  rewrite Forall_forall in Hy. by apply Hy, list_elem_of_In.
Qed.

Lemma children_rmtree (d d' : str) (l : list (str * node)) :
  d' <> d -> children d' (rmtree d l) = children d' l.
Proof.
  intros Hne. induction l as [|[n nd] l IH]; [done|].
  cbn [rmtree List.filter children fst]. fold (rmtree d l).
  unfold str_eqb at 1. case_bool_decide as Hn; cbn [negb].
  - subst n. unfold str_eqb. rewrite bool_decide_eq_false_2 by done. apply IH.
  - cbn [children]. by rewrite IH.
Qed.

(** The loop prints one line for each directory it deletes, in the order
    it is given them. *)
Lemma remove_loop_stdout (dirs : list str) (s : State) :
  NoDup dirs ->
  stdout (remove_loop dirs s) =
    stdout s ++
    map (fun d => py "remove: " ++ d)
      (List.filter (fun d => skip_it (children d (modules_dir (world s)))) dirs).
Proof.
  intros Hnodup. revert s.
  induction Hnodup as [|d rest Hfresh _ IH]; intros s.
  - cbn. by rewrite app_nil_r.
  - cbn [remove_loop List.filter].
    destruct (skip_it (children d (modules_dir (world s)))) eqn:Hskip.
    + rewrite IH. cbn [stdout world modules_dir map].
      rewrite <- app_assoc. cbn [app]. do 3 f_equal.
      apply filter_ext_in. intros d' Hin.
      rewrite children_rmtree; [done|].
      intros ->. by apply list_elem_of_In in Hin.
    + apply IH.
Qed.

(** X17. The pruning step prints [remove: name] once for each directory
    it deletes and nothing else, the names in ascending order of Python's
    string comparison, whatever the order in which the system lists the
    directories. *)
Theorem remove_prints_sorted (s : State) :
  NoDup (map fst (modules_dir (world s))) ->
  exists removed : list str,
    stdout (fst (remove s)) =
      stdout s ++ map (fun d => py "remove: " ++ d) removed /\
    ascending removed /\
    NoDup removed /\
    (forall d, d ∈ removed <->
       exists nd, (d, nd) ∈ modules_dir (world s) /\ doomed (d, nd) = true).
Proof.
  intros Hnodup.
  set (l := modules_dir (world s)) in *.
  set (cands := map fst (glob_dirs not_hidden l)).
  assert (NoDup cands) as Hcands.
  { unfold cands, glob_dirs, glob. by do 2 apply filter_names_nodup. }
  assert (NoDup (sorted cands)) as Hsorted by by rewrite sorted_perm.
  exists (List.filter (fun d => skip_it (children d l)) (sorted cands)).
  split; [|split; [|split]].
  - unfold remove. cbn [fst]. by rewrite remove_loop_stdout.
  - apply filter_ascending, sorted_ascending.
  - by apply NoDup_ListNoDup, List.NoDup_filter, NoDup_ListNoDup.
  - intros d. rewrite list_elem_of_In, filter_In, <- list_elem_of_In.
    rewrite sorted_perm. unfold cands. rewrite list_elem_of_fmap. split.
    + intros [([n nd] & -> & Hin) Hskip]. cbn [fst] in *.
      unfold glob_dirs, glob in Hin.
      apply list_elem_of_In, filter_In in Hin as [Hin Hdir].
      apply filter_In in Hin as [Hin Hmatch]. apply list_elem_of_In in Hin.
      exists nd. split; [done|].
      rewrite (children_unique l n nd Hnodup Hin) in Hskip.
      unfold doomed. cbn [fst snd] in *. by rewrite Hmatch, Hdir, Hskip.
    + intros (nd & Hin & Hdoomed). unfold doomed in Hdoomed.
      cbn [fst snd] in Hdoomed.
      apply andb_true_iff in Hdoomed as [Hdoomed Hskip].
      apply andb_true_iff in Hdoomed as [Hmatch Hdir].
      split.
      * exists (d, nd). split; [done|].
        unfold glob_dirs, glob. apply list_elem_of_In, filter_In.
        split; [|done]. apply filter_In.
        split; [by apply list_elem_of_In | done].
      * by rewrite (children_unique l d nd Hnodup Hin).
Qed.

Lemma remove_prints_sorted_witness :
  exists removed : list str,
    stdout (fst (remove (sample_state Unparseable))) =
      map (fun d => py "remove: " ++ d) removed /\
    ascending removed.
Proof.
  destruct (remove_prints_sorted (sample_state Unparseable)
              sample_modules_nodup) as (removed & Hout & Hasc & _).
  exists removed. split; [exact Hout | exact Hasc].
Defined.

(** ** The order of the workflow *)

Section Steps.

Variable subprocess : list str -> World -> World * Z.
Variable float : Type.
Variable float_of_literal : str -> float.
Variable int_truediv : Z -> Z -> result float.
Variable float_truediv : float -> Z -> float.
Variable time : Type.
Variable fromtimestamp_utc : float -> result time.
Variable time_str : time -> str.

Local Abbreviation commit_of :=
  (commit subprocess float float_of_literal int_truediv float_truediv
     time fromtimestamp_utc time_str).
Local Abbreviation exec_of :=
  (exec subprocess float float_of_literal int_truediv float_truediv
     time fromtimestamp_utc time_str).

Lemma commit_calls (s : State) :
  calls (fst (commit_of s)) = calls s \/
  exists msg, calls (fst (commit_of s)) = calls s ++ [commit_args msg].
Proof.
  unfold commit.
  destruct (bind _ _) as [msg|e]; [|by left].
  right. exists msg. unfold run_checked, commit_args.
  destruct (subprocess _ (world s)) as [w rc]. by destruct (Z.eqb rc 0).
Qed.

Lemma commit_ok_calls (s : State) :
  snd (commit_of s) = Ok tt ->
  exists msg, calls (fst (commit_of s)) = calls s ++ [commit_args msg].
Proof.
  unfold commit.
  destruct (bind _ _) as [msg|e]; [|discriminate].
  intros _. exists msg. unfold run_checked, commit_args.
  destruct (subprocess _ (world s)) as [w rc]. by destruct (Z.eqb rc 0).
Qed.

(** X18. The workflow always starts [mrepo upgrade] first, starts
    [git add] only after it, and [git commit] only after both; it starts
    each of them at most once, and when it ends without exception all
    three were started, in this order. *)
Theorem workflow_call_order (s : State) :
  exists started : list (list str),
    calls (fst (exec_of s)) = calls s ++ started /\
    (started = [upgrade_args] \/
     started = [upgrade_args; add_args] \/
     exists msg, started = [upgrade_args; add_args; commit_args msg]) /\
    (snd (exec_of s) = Ok tt ->
     exists msg, started = [upgrade_args; add_args; commit_args msg]).
Proof.
  unfold exec, and_then, remove, upgrade, add, run_checked.
  destruct (remove_loop_untouched
              (sorted (map fst (glob_dirs not_hidden (modules_dir (world s)))))
              s) as [_ Hcalls].
  set (s0 := remove_loop _ s) in *. fold upgrade_args add_args.
  destruct (subprocess upgrade_args (world s0)) as [w1 rc1].
  destruct (Z.eqb rc1 0).
  - cbn [world calls stdout].
    destruct (subprocess add_args w1) as [w2 rc2].
    destruct (Z.eqb rc2 0).
    + set (s2 := {| world := w2 |}).
      assert (calls s2 = calls s ++ [upgrade_args; add_args]) as Hs2.
      { unfold s2. cbn [calls]. by rewrite Hcalls, <- app_assoc. }
      destruct (commit_of s2) as [s3 r] eqn:Hcommit.
      assert (s3 = fst (commit_of s2)) as -> by by rewrite Hcommit.
      assert (r = snd (commit_of s2)) as -> by by rewrite Hcommit.
      destruct (snd (commit_of s2)) as [[]|e] eqn:Hr.
      * destruct (commit_ok_calls s2 Hr) as (msg & Hmsg).
        exists [upgrade_args; add_args; commit_args msg]. cbn [fst snd].
        rewrite Hmsg, Hs2, <- app_assoc. split; [done|].
        split; [right; right; by exists msg | intros _; by exists msg].
      * cbn [fst snd]. destruct (commit_calls s2) as [Hsame|(msg & Hmsg)].
        -- exists [upgrade_args; add_args]. rewrite Hsame, Hs2.
           split; [done|]. split; [by right; left | done].
        -- exists [upgrade_args; add_args; commit_args msg].
           rewrite Hmsg, Hs2, <- app_assoc. split; [done|].
           split; [right; right; by exists msg | done].
    + exists [upgrade_args; add_args]. cbn [fst snd calls].
      rewrite Hcalls, <- app_assoc. split; [done|].
      split; [by right; left | done].
  - exists [upgrade_args]. cbn [fst snd calls]. rewrite Hcalls.
    split; [done|]. split; [by left | done].
Qed.

(** X19. A program that exits with a code other than 0 ends the workflow
    with [CalledProcessError] and nothing is started after it. When both
    [mrepo upgrade] and [git add] exit with 0, the commit step runs on the
    working directory as these programs left it, so the message comes from
    the manifest as it is after the upgrade. *)
Theorem workflow_steps (s : State) :
  let pruned := fst (remove s) in
  let upgraded := subprocess upgrade_args (world pruned) in
  let added := subprocess add_args (fst upgraded) in
  (snd upgraded <> 0 ->
     snd (exec_of s) = Raise CalledProcessError /\
     calls (fst (exec_of s)) = calls s ++ [upgrade_args]) /\
  (snd upgraded = 0 -> snd added <> 0 ->
     snd (exec_of s) = Raise CalledProcessError /\
     calls (fst (exec_of s)) = calls s ++ [upgrade_args; add_args]) /\
  (snd upgraded = 0 -> snd added = 0 ->
     exec_of s =
       commit_of {| world := fst added;
                    calls := calls s ++ [upgrade_args; add_args];
                    stdout := stdout pruned |}).
Proof.
  cbn zeta. unfold exec, and_then, remove, upgrade, add, run_checked.
  destruct (remove_loop_untouched
              (sorted (map fst (glob_dirs not_hidden (modules_dir (world s)))))
              s) as [_ Hcalls].
  cbn [fst]. set (s0 := remove_loop _ s) in *. fold upgrade_args add_args.
  destruct (subprocess upgrade_args (world s0)) as [w1 rc1]. cbn [fst snd].
  destruct (Z.eqb_spec rc1 0) as [->|Hrc1].
  - cbn [world calls stdout].
    destruct (subprocess add_args w1) as [w2 rc2]. cbn [fst snd].
    destruct (Z.eqb_spec rc2 0) as [->|Hrc2].
    + split; [done|]. split; [done|]. intros _ _.
      by rewrite Hcalls, <- app_assoc.
    + split; [done|]. split; [|done]. intros _ _. cbn [fst snd calls].
      by rewrite Hcalls, <- app_assoc.
  - split; [|by split]. intros _. cbn [fst snd calls]. by rewrite Hcalls.
Qed.

End Steps.

Lemma workflow_steps_witness :
  snd (exec_with failing_upgrade (sample_state Unparseable))
    = Raise CalledProcessError /\
  calls (fst (exec_with failing_add (sample_state Unparseable)))
    = [upgrade_args; add_args].
Proof.
  split.
  - refine (proj1 (proj1 (workflow_steps failing_upgrade (pyval * Z)%type
              (fun literal => (PFloat literal, 1))
              (fun z d => Ok (PInt z, d))
              (fun f d => (fst f, snd f * d))
              (pyval * Z)%type Ok quotient_str (sample_state Unparseable)) _)).
    by vm_compute.
  - refine (proj2 (proj1 (proj2 (workflow_steps failing_add (pyval * Z)%type
              (fun literal => (PFloat literal, 1))
              (fun z d => Ok (PInt z, d))
              (fun f d => (fst f, snd f * d))
              (pyval * Z)%type Ok quotient_str (sample_state Unparseable)))
              _ _)).
    + by vm_compute.
    + by vm_compute.
Defined.

(** ** When the resolver returns *)

(** X20. The changelog probe tells one failure apart: a 404 gives the
    empty string. A file gives its download URL, a directory at the path
    raises [AttributeError], and any other exception of the lookup reaches
    the caller. *)
Theorem get_changelog_outcomes (repo : Repository) :
  (repo_get_contents repo (py "changelog.md") = Raise UnknownObjectException ->
     get_changelog repo = Ok []) /\
  (forall f, repo_get_contents repo (py "changelog.md") = Ok (AFile f) ->
     get_changelog repo = Ok (download_url f)) /\
  (forall l, repo_get_contents repo (py "changelog.md") = Ok (AListing l) ->
     get_changelog repo = Raise AttributeError) /\
  (forall e, repo_get_contents repo (py "changelog.md") = Raise e ->
     e <> UnknownObjectException -> get_changelog repo = Raise e).
Proof.
  unfold get_changelog. split; [|split; [|split]].
  - by intros ->.
  - by intros f ->.
  - by intros l ->.
  - intros e -> He. by destruct e.
Qed.

Section Returns.

Variable requests_post : str -> str -> result Response.

(** X21. The resolver returns a record exactly when the descriptor
    parses into a mapping with an [id], the changelog probe returns unless
    [updateJson] makes it unnecessary, and the funding, homepage and
    license lookups return; the record then carries that [id]. *)
Theorem resolver_returns_iff (token : str) (repo : Repository) (id : str) :
  (exists r, generate_module requests_post token repo = Ok (Some r) /\
             mod_id r = id) <->
  exists module_prop,
    get_module_prop repo = Ok (Some module_prop) /\
    module_prop !! py "id" = Some id /\
    (truthy (module_prop !! py "updateJson") = true \/
     exists changelog, get_changelog repo = Ok changelog) /\
    (exists donate_urls,
       get_sponsor_url requests_post token (owner_login repo) (name repo)
         = Ok donate_urls) /\
    (exists homepage,
       get_homepage_url requests_post token (owner_login repo) (name repo)
         = Ok homepage) /\
    (exists license, get_license repo = Ok license).
Proof.
  split.
  - intros (r & Hgen & <-).
    apply generate_module_inv in Hgen
      as (mp & urls & hp & Hprop & Hkind & Hurls & _ & Hhp & _ & Hid & Hlic & _).
    exists mp. split; [done|]. split; [done|].
    split; [|split; [by exists urls | split; [by exists hp | by eexists]]].
    destruct (truthy (mp !! py "updateJson")); [by left|].
    right. destruct Hkind as (_ & Hlog & _). by eexists.
  - intros (mp & Hprop & Hid & Hkind & (urls & Hurls) & (hp & Hhp) & (lic & Hlic)).
    unfold generate_module. rewrite Hprop. cbn [bind].
    destruct (truthy (mp !! py "updateJson")) eqn:Htruthy.
    + unfold prop_getitem.
      destruct (mp !! py "updateJson") as [v|]; [|discriminate].
      cbn [bind]. rewrite Hurls. cbn [bind]. rewrite Hhp. cbn [bind].
      rewrite Hid. cbn [bind]. rewrite Hlic. cbn [bind]. by eexists.
    + destruct Hkind as [|[c Hc]]; [discriminate|].
      rewrite Hc. cbn [bind]. rewrite Hurls. cbn [bind]. rewrite Hhp.
      cbn [bind]. unfold prop_getitem. rewrite Hid. cbn [bind].
      rewrite Hlic. cbn [bind]. by eexists.
Qed.

End Returns.
